(** * add_local_modules.py: scan [local/], read [module.prop], register tracks

    A shallow embedding of [src/add_local_modules.py] and the properties
    of its three stages (directory scan, metadata extraction, track
    registration) and of the orchestration in [main].

    Python [str] values are sequences of Unicode code points, modelled as
    [list Z]; [bytes] values are [list byte].  Console output and calls of
    [subprocess.run] are threaded through an explicit state; Python
    exceptions are the second summand of the outcome type.  The functions
    are given twice: on a console that can show every line, and on a
    console where [print] can raise; the two agree wherever the console
    can show the lines of the run. *)

From Stdlib Require Import List ZArith Bool Lia.
From Stdlib.Strings Require Import String Ascii Byte.
From Stdlib Require Import DecimalString.
Import ListNotations.

Open Scope Z_scope.

(** ** Python [str] as a list of code points *)

Module PyStr.

Definition pystr := list Z.

(** An ASCII literal of the source, as code points. *)
Definition str (s : string) : pystr :=
  List.map (fun a => Z.of_nat (nat_of_ascii a)) (list_ascii_of_string s).

(** The line feed of ["\n..."] literals. *)
Definition nl : pystr := [10].

Fixpoint eqb (a b : pystr) : bool :=
  match a, b with
  | [], [] => true
  | x :: a', y :: b' => (x =? y) && eqb a' b'
  | _, _ => false
  end.

(** [x in l] for a list of strings. *)
Definition contains (x : pystr) (l : list pystr) : bool :=
  existsb (eqb x) l.

(** Truth value of a string: non-empty. *)
Definition truthy (s : pystr) : bool :=
  match s with [] => false | _ :: _ => true end.

(** [Py_UNICODE_ISSPACE]: the characters [str.strip()] removes. *)
Definition isspace (c : Z) : bool :=
  ((0x09 <=? c) && (c <=? 0x0D)) || ((0x1C <=? c) && (c <=? 0x1F))
  || (c =? 0x20) || (c =? 0x85) || (c =? 0xA0) || (c =? 0x1680)
  || ((0x2000 <=? c) && (c <=? 0x200A))
  || (c =? 0x2028) || (c =? 0x2029) || (c =? 0x202F) || (c =? 0x205F)
  || (c =? 0x3000).

(** [Py_UNICODE_ISLINEBREAK]: the boundaries of [str.splitlines()]. *)
Definition islinebreak (c : Z) : bool :=
  ((0x0A <=? c) && (c <=? 0x0D)) || ((0x1C <=? c) && (c <=? 0x1E))
  || (c =? 0x85) || (c =? 0x2028) || (c =? 0x2029).

Fixpoint lstrip (s : pystr) : pystr :=
  match s with
  | [] => []
  | c :: s' => if isspace c then lstrip s' else s
  end.

Definition rstrip (s : pystr) : pystr := rev (lstrip (rev s)).

(** [s.strip()] *)
Definition strip (s : pystr) : pystr := rstrip (lstrip s).

(** [s.startswith(p)] *)
Fixpoint startswith (p s : pystr) : bool :=
  match p, s with
  | [], _ => true
  | x :: p', y :: s' => (x =? y) && startswith p' s'
  | _ :: _, [] => false
  end.

(** [s.splitlines()]: [cur] is the current line, reversed.  A carriage
    return directly followed by a line feed is one boundary; no empty
    last line is produced after a final boundary. *)
Fixpoint splitlines_from (cur : pystr) (s : pystr) : list pystr :=
  match s with
  | [] => match cur with [] => [] | _ :: _ => [rev cur] end
  | c :: rest =>
      if islinebreak c then
        rev cur ::
          match rest with
          | d :: rest' =>
              if (c =? 0x0D) && (d =? 0x0A) then splitlines_from [] rest'
              else splitlines_from [] rest
          | [] => splitlines_from [] rest
          end
      else splitlines_from (c :: cur) rest
  end.

Definition splitlines (s : pystr) : list pystr := splitlines_from [] s.

(** [s.split(sep, 1)] for a one-character separator. *)
Fixpoint split_once (sep : Z) (s : pystr) : list pystr :=
  match s with
  | [] => [[]]
  | c :: s' =>
      if c =? sep then [[]; s']
      else match split_once sep s' with
           | h :: t => (c :: h) :: t
           | [] => [[c]]
           end
  end.

(** [sep.join(l)] *)
Fixpoint join (sep : pystr) (l : list pystr) : pystr :=
  match l with
  | [] => []
  | [x] => x
  | x :: l' => x ++ sep ++ join sep l'
  end.

(** [str(n)] for a non-negative integer: its decimal digits. *)
Definition of_nat (n : nat) : pystr :=
  str (NilEmpty.string_of_uint (Nat.to_uint n)).

End PyStr.

Import PyStr.

(** ** [bytes.decode("utf-8")]

    The strict decoder: well-formed sequences only (no overlong forms, no
    surrogates, nothing above U+10FFFF); anything else raises
    [UnicodeDecodeError], here [None]. *)

Module Utf8.

Definition cont (b : Z) : bool := (0x80 <=? b) && (b <=? 0xBF).

Definition payload (b : Z) : Z := Z.land b 0x3F.

Definition join2 (b0 b1 : Z) : Z :=
  Z.lor (Z.shiftl (Z.land b0 0x1F) 6) (payload b1).

Definition join3 (b0 b1 b2 : Z) : Z :=
  Z.lor (Z.shiftl (Z.land b0 0x0F) 12)
        (Z.lor (Z.shiftl (payload b1) 6) (payload b2)).

Definition join4 (b0 b1 b2 b3 : Z) : Z :=
  Z.lor (Z.shiftl (Z.land b0 0x07) 18)
        (Z.lor (Z.shiftl (payload b1) 12)
               (Z.lor (Z.shiftl (payload b2) 6) (payload b3))).

(** The second byte of a three-byte form: a continuation byte, at least
    0xA0 after 0xE0 and below 0xA0 after 0xED. *)
Definition second3 (b0 b1 : Z) : bool :=
  cont b1 && negb (if b1 <? 0xA0 then b0 =? 0xE0 else b0 =? 0xED).

(** The second byte of a four-byte form: a continuation byte, at least
    0x90 after 0xF0 and below 0x90 after 0xF4. *)
Definition second4 (b0 b1 : Z) : bool :=
  cont b1 && negb (if b1 <? 0x90 then b0 =? 0xF0 else b0 =? 0xF4).

Definition push (c : Z) (r : option pystr) : option pystr :=
  match r with Some s => Some (c :: s) | None => None end.

Fixpoint decode_codes (bs : list Z) : option pystr :=
  match bs with
  | [] => Some []
  | b0 :: r0 =>
      if b0 <? 0x80 then push b0 (decode_codes r0)
      else if b0 <? 0xC2 then None
      else if b0 <? 0xE0 then
        match r0 with
        | b1 :: r1 =>
            if cont b1 then push (join2 b0 b1) (decode_codes r1) else None
        | _ => None
        end
      else if b0 <? 0xF0 then
        match r0 with
        | b1 :: b2 :: r2 =>
            if second3 b0 b1 && cont b2
            then push (join3 b0 b1 b2) (decode_codes r2) else None
        | _ => None
        end
      else if b0 <? 0xF5 then
        match r0 with
        | b1 :: b2 :: b3 :: r3 =>
            if second4 b0 b1 && cont b2 && cont b3
            then push (join4 b0 b1 b2 b3) (decode_codes r3) else None
        | _ => None
        end
      else None
  end.

Definition decode (bs : list byte) : option pystr :=
  decode_codes (List.map (fun b => Z.of_N (Byte.to_N b)) bs).

End Utf8.

(** ASCII text as the bytes of a file. *)
Definition bytes_of (s : string) : list byte := list_byte_of_string s.

(** ** The world the script runs in *)

(** The exceptions the script can meet; all are subclasses of
    [Exception].  [str(e)] is not modelled: the world supplies it. *)
Inductive exn :=
| ArchiveError (msg : pystr)          (* [ZipFile(...)] or [ZipFile.read] failed *)
| KeyError (key : pystr)              (* no archive member of that name *)
| UnicodeDecodeError (data : list byte)
| IndexError
| LaunchError (msg : pystr)           (* [subprocess.run] failed *)
| UnicodeEncodeError (line : pystr).  (* [print] could not encode the line *)

(** What reading a member of an archive gives. *)
Inductive member_data :=
| Data (content : list byte)
| Unreadable (e : exn).

Record zip_entry := { filename : pystr; data : member_data }.

(** What [ZipFile(path, 'r')] gives for an entry of the directory: the
    member list in archive order, or an exception (not a zip file, a
    directory, unreadable, ...). *)
Inductive zip_open :=
| Opened (filelist : list zip_entry)
| OpenFails (e : exn).

(** An entry of [local/]: [name] is [zip_path.name]. *)
Record dir_entry := { name : pystr; archive : zip_open }.

Record invocation := { argv : list pystr; cwd : pystr }.

(** [subprocess.CompletedProcess] with captured text. *)
Record completed := { returncode : Z; stdout : pystr; stderr : pystr }.

Inductive run_result :=
| Completed (r : completed)
| NotLaunched (e : exn).

(** What is found at the path [local]. *)
Inductive path_state :=
| Missing                                 (* nothing of that name *)
| NotADirectory                           (* something that is no directory *)
| Directory (entries : list dir_entry).

Record world := {
  sys_executable : pystr;
  script_dir : pystr;                          (* [Path(__file__).parent] *)
  local_path : path_state;
  (* the external program, which may depend on the earlier calls *)
  run_process : list invocation -> invocation -> run_result;
  exn_text : exn -> pystr                      (* [str(e)] *)
}.

(** What [local_dir.exists()] and [local_dir.glob] see of the path:
    [None] when [exists()] is false, that is when nothing is there;
    otherwise the entries a glob enumerates, none for a path that is not
    a directory. *)
Definition local_dir (w : world) : option (list dir_entry) :=
  match local_path w with
  | Missing => None
  | NotADirectory => Some []
  | Directory entries => Some entries
  end.

(** ** Effects: printed lines, spawned processes, exceptions *)

(** [printed] holds the argument of each [print] call, oldest first;
    [spawned] the calls of [subprocess.run], oldest first. *)
Record trace := { printed : list pystr; spawned : list invocation }.

Definition start : trace := {| printed := []; spawned := [] |}.

Inductive outcome (A : Type) :=
| Ret (a : A) (t : trace)
| Raise (e : exn) (t : trace).

Arguments Ret {A} a t.
Arguments Raise {A} e t.

Definition M (A : Type) := trace -> outcome A.

Definition ret {A} (a : A) : M A := fun t => Ret a t.

Definition raise {A} (e : exn) : M A := fun t => Raise e t.

Definition bind {A B} (m : M A) (k : A -> M B) : M B :=
  fun t => match m t with
           | Ret a t' => k a t'
           | Raise e t' => Raise e t'
           end.

(** [try: m except Exception as e: h e] *)
Definition try_except {A} (m : M A) (h : exn -> M A) : M A :=
  fun t => match m t with
           | Ret a t' => Ret a t'
           | Raise e t' => h e t'
           end.

(** [print(s)] on a console that can show every line.  The functions
    that follow are the script on such a console; the section on the
    console below gives them with a [print] that can fail. *)
Definition print (s : pystr) : M unit :=
  fun t => Ret tt {| printed := printed t ++ [s]; spawned := spawned t |}.

Definition when (b : bool) (m : M unit) : M unit :=
  if b then m else ret tt.

Declare Scope py_scope.
Delimit Scope py_scope with py.
Notation "x <- m ;; k" := (bind m (fun x => k))
  (at level 61, m at next level, right associativity) : py_scope.
Notation "m ;; k" := (bind m (fun _ => k))
  (at level 61, right associativity) : py_scope.
Open Scope py_scope.

(** ** Library calls *)

(** [ZipFile(zip_path, 'r')] *)
Definition ZipFile (zip_path : dir_entry) : M (list zip_entry) :=
  match archive zip_path with
  | Opened fl => ret fl
  | OpenFails e => raise e
  end.

(** [zip_file.namelist()] *)
Definition namelist (fl : list zip_entry) : list pystr :=
  List.map filename fl.

(** [zip_file.getinfo(member)] and [zip_file.read(member)]: a later member
    of the same name replaces an earlier one in the name table. *)
Definition getinfo (fl : list zip_entry) (member : pystr) : option zip_entry :=
  find (fun e => eqb member (filename e)) (rev fl).

Definition zip_read (fl : list zip_entry) (member : pystr) : M (list byte) :=
  match getinfo fl member with
  | None => raise (KeyError member)
  | Some e =>
      match data e with
      | Data b => ret b
      | Unreadable x => raise x
      end
  end.

(** [b.decode("utf-8")] *)
Definition decode_utf8 (b : list byte) : M pystr :=
  match Utf8.decode b with
  | Some s => ret s
  | None => raise (UnicodeDecodeError b)
  end.

(** [l[i]] *)
Definition index (l : list pystr) (i : nat) : M pystr :=
  match nth_error l i with
  | Some x => ret x
  | None => raise IndexError
  end.

(** [subprocess.run(cmd, capture_output=True, text=True, cwd=...)] *)
Definition subprocess_run (w : world) (c : invocation) : M completed :=
  fun t =>
    let t' := {| printed := printed t; spawned := spawned t ++ [c] |} in
    match run_process w (spawned t) c with
    | Completed r => Ret r t'
    | NotLaunched e => Raise e t'
    end.

(** ** [extract_module_id] *)

Definition updater_script : pystr :=
  str "META-INF/com/google/android/updater-script".

Definition update_binary : pystr :=
  str "META-INF/com/google/android/update-binary".

Definition module_prop_name : pystr := str "module.prop".

(** The [for line in module_prop.splitlines()] loop: [Some] is the
    [return module_id] inside it, [None] is falling out of the loop. *)
Fixpoint scan_lines (lines : list pystr) : M (option pystr) :=
  match lines with
  | [] => ret None
  | line :: rest =>
      let line := strip line in
      if startswith (str "id=") line then
        field <- index (split_once 61 line) 1 ;;
        let module_id := strip field in
        if truthy module_id then ret (Some module_id)
        else scan_lines rest
      else scan_lines rest
  end.

(** The body of the [try] block. *)
Definition extract_body (zip_path : dir_entry) : M (option pystr) :=
  zip_file <- ZipFile zip_path ;;
  if negb (contains updater_script (namelist zip_file))
     || negb (contains update_binary (namelist zip_file))
  then
    print (str "Warning: " ++ name zip_path ++
           str " is not a valid Magisk module (missing updater-script or update-binary)") ;;
    ret None
  else if negb (contains module_prop_name (namelist zip_file)) then
    print (str "Warning: " ++ name zip_path ++
           str " does not contain module.prop") ;;
    ret None
  else
    raw <- zip_read zip_file module_prop_name ;;
    module_prop <- decode_utf8 raw ;;
    found <- scan_lines (splitlines module_prop) ;;
    match found with
    | Some module_id => ret (Some module_id)
    | None =>
        print (str "Warning: Could not find 'id=' in module.prop of " ++
               name zip_path) ;;
        ret None
    end.

Definition extract_module_id (w : world) (zip_path : dir_entry)
  : M (option pystr) :=
  try_except (extract_body zip_path)
    (fun e =>
       print (str "Error reading " ++ name zip_path ++ str ": " ++
              exn_text w e) ;;
       ret None).

(** ** [add_track] *)

Definition track_cmd (w : world) (module_id zip_filename : pystr)
  : list pystr :=
  [ sys_executable w; str "cli.py"; str "track"; str "--add";
    str "id=" ++ module_id;
    str "update_to=" ++ zip_filename;
    str "changelog=" ].

Definition add_track (w : world) (module_id zip_filename : pystr) : M unit :=
  let cmd := track_cmd w module_id zip_filename in
  print (str "Executing: " ++ join (str " ") cmd) ;;
  try_except
    (result <- subprocess_run w {| argv := cmd; cwd := script_dir w |} ;;
     if returncode result =? 0 then
       print (str "Successfully added track for " ++ module_id) ;;
       when (truthy (strip (stdout result)))
            (print (str "Output: " ++ strip (stdout result)))
     else
       print (str "Failed to add track for " ++ module_id) ;;
       when (truthy (strip (stderr result)))
            (print (str "Error: " ++ strip (stderr result))) ;;
       when (truthy (strip (stdout result)))
            (print (str "Output: " ++ strip (stdout result))))
    (fun e =>
       print (str "Error executing command for " ++ module_id ++ str ": " ++
              exn_text w e)).

(** ** [Path.glob]

    A pattern of one path component, as [fnmatch] compiles it: [*] is any
    run of characters, [?] any one character, anything else itself.  The
    comparison is that of the POSIX path flavour, by code point. *)

Inductive glob_token :=
| AnyRun
| AnyChar
| Literal (c : Z).

Fixpoint fnmatchcase (pat : list glob_token) (s : pystr) : bool :=
  match pat with
  | [] => match s with [] => true | _ :: _ => false end
  | AnyRun :: pat' =>
      (fix skip (u : pystr) : bool :=
         fnmatchcase pat' u
         || match u with [] => false | _ :: u' => skip u' end) s
  | AnyChar :: pat' =>
      match s with [] => false | _ :: s' => fnmatchcase pat' s' end
  | Literal c :: pat' =>
      match s with [] => false | d :: s' => (c =? d) && fnmatchcase pat' s' end
  end.

(** The pattern ["*.zip"]. *)
Definition zip_pattern : list glob_token :=
  AnyRun :: List.map Literal (str ".zip").

(** [local_dir.glob("*.zip")]: the matching entries, in directory order. *)
Definition glob (pat : list glob_token) (entries : list dir_entry)
  : list dir_entry :=
  filter (fun e => fnmatchcase pat (name e)) entries.

(** ** [main] *)

(** Truth value of what [extract_module_id] returns. *)
Definition found (module_id : option pystr) : option pystr :=
  match module_id with
  | Some s => if truthy s then Some s else None
  | None => None
  end.

(** The body of [for zip_file in zip_files]. *)
Definition process_file (w : world) (zip_file : dir_entry)
  (added_count : nat) : M nat :=
  print (nl ++ str "Processing " ++ name zip_file ++ str "...") ;;
  module_id <- extract_module_id w zip_file ;;
  match found module_id with
  | Some module_id =>
      print (str "Found module ID: " ++ module_id) ;;
      add_track w module_id (name zip_file) ;;
      ret (S added_count)
  | None =>
      print (str "Skipping " ++ name zip_file ++
             str " - could not extract module ID") ;;
      ret added_count
  end.

Fixpoint for_each (w : world) (zip_files : list dir_entry)
  (added_count : nat) : M nat :=
  match zip_files with
  | [] => ret added_count
  | zip_file :: rest =>
      added_count <- process_file w zip_file added_count ;;
      for_each w rest added_count
  end.

Definition summary (files added : nat) : pystr :=
  nl ++ str "Processed " ++ of_nat files ++ str " files, added " ++
  of_nat added ++ str " tracks".

Definition main (w : world) : M Z :=
  match local_dir w with
  | None =>
      print (str "Error: local/ directory does not exist") ;;
      ret 1
  | Some entries =>
      let zip_files := glob zip_pattern entries in
      match zip_files with
      | [] =>
          print (str "No .zip files found in local/ directory") ;;
          ret 0
      | _ :: _ =>
          print (str "Found " ++ of_nat (List.length zip_files) ++
                 str " zip files in local/ directory") ;;
          added_count <- for_each w zip_files 0%nat ;;
          print (summary (List.length zip_files) added_count) ;;
          when (0 <? added_count)%nat
            (print (nl ++ str "To sync the modules, run: python cli.py sync") ;;
             print (str "To generate the index, run: python cli.py index")) ;;
          ret 0
      end
  end.

(** What the run printed and spawned, on a console that can show every
    line. *)
Definition final_trace (w : world) : trace :=
  match main w start with
  | Ret _ t => t
  | Raise _ t => t
  end.

(** ** The console

    [print] encodes its line for [sys.stdout] and raises
    [UnicodeEncodeError], before anything of the line is written, when
    the stream cannot encode it.  A console is the set of lines it can
    show.  The functions of the script follow once more, with this
    [print]. *)

Definition console := pystr -> bool.

(** The console that can show every line. *)
Definition accepting : console := fun _ => true.

Definition print_to (out : console) (s : pystr) : M unit :=
  fun t =>
    if out s
    then Ret tt {| printed := printed t ++ [s]; spawned := spawned t |}
    else Raise (UnicodeEncodeError s) t.

Definition extract_body_on (out : console) (zip_path : dir_entry)
  : M (option pystr) :=
  zip_file <- ZipFile zip_path ;;
  if negb (contains updater_script (namelist zip_file))
     || negb (contains update_binary (namelist zip_file))
  then
    print_to out
      (str "Warning: " ++ name zip_path ++
       str " is not a valid Magisk module (missing updater-script or update-binary)") ;;
    ret None
  else if negb (contains module_prop_name (namelist zip_file)) then
    print_to out
      (str "Warning: " ++ name zip_path ++
       str " does not contain module.prop") ;;
    ret None
  else
    raw <- zip_read zip_file module_prop_name ;;
    module_prop <- decode_utf8 raw ;;
    found <- scan_lines (splitlines module_prop) ;;
    match found with
    | Some module_id => ret (Some module_id)
    | None =>
        print_to out
          (str "Warning: Could not find 'id=' in module.prop of " ++
           name zip_path) ;;
        ret None
    end.

Definition extract_module_id_on (out : console) (w : world)
  (zip_path : dir_entry) : M (option pystr) :=
  try_except (extract_body_on out zip_path)
    (fun e =>
       print_to out
         (str "Error reading " ++ name zip_path ++ str ": " ++
          exn_text w e) ;;
       ret None).

Definition add_track_on (out : console) (w : world)
  (module_id zip_filename : pystr) : M unit :=
  let cmd := track_cmd w module_id zip_filename in
  print_to out (str "Executing: " ++ join (str " ") cmd) ;;
  try_except
    (result <- subprocess_run w {| argv := cmd; cwd := script_dir w |} ;;
     if returncode result =? 0 then
       print_to out (str "Successfully added track for " ++ module_id) ;;
       when (truthy (strip (stdout result)))
            (print_to out (str "Output: " ++ strip (stdout result)))
     else
       print_to out (str "Failed to add track for " ++ module_id) ;;
       when (truthy (strip (stderr result)))
            (print_to out (str "Error: " ++ strip (stderr result))) ;;
       when (truthy (strip (stdout result)))
            (print_to out (str "Output: " ++ strip (stdout result))))
    (fun e =>
       print_to out
         (str "Error executing command for " ++ module_id ++ str ": " ++
          exn_text w e)).

Definition process_file_on (out : console) (w : world)
  (zip_file : dir_entry) (added_count : nat) : M nat :=
  print_to out (nl ++ str "Processing " ++ name zip_file ++ str "...") ;;
  module_id <- extract_module_id_on out w zip_file ;;
  match found module_id with
  | Some module_id =>
      print_to out (str "Found module ID: " ++ module_id) ;;
      add_track_on out w module_id (name zip_file) ;;
      ret (S added_count)
  | None =>
      print_to out
        (str "Skipping " ++ name zip_file ++
         str " - could not extract module ID") ;;
      ret added_count
  end.

Fixpoint for_each_on (out : console) (w : world)
  (zip_files : list dir_entry) (added_count : nat) : M nat :=
  match zip_files with
  | [] => ret added_count
  | zip_file :: rest =>
      added_count <- process_file_on out w zip_file added_count ;;
      for_each_on out w rest added_count
  end.

Definition main_on (out : console) (w : world) : M Z :=
  match local_dir w with
  | None =>
      print_to out (str "Error: local/ directory does not exist") ;;
      ret 1
  | Some entries =>
      let zip_files := glob zip_pattern entries in
      match zip_files with
      | [] =>
          print_to out (str "No .zip files found in local/ directory") ;;
          ret 0
      | _ :: _ =>
          print_to out
            (str "Found " ++ of_nat (List.length zip_files) ++
             str " zip files in local/ directory") ;;
          added_count <- for_each_on out w zip_files 0%nat ;;
          print_to out (summary (List.length zip_files) added_count) ;;
          when (0 <? added_count)%nat
            (print_to out
               (nl ++ str "To sync the modules, run: python cli.py sync") ;;
             print_to out
               (str "To generate the index, run: python cli.py index")) ;;
          ret 0
      end
  end.

(** [sys.exit(main())]: the exit status of the process.  An exception
    that leaves [main] ends the interpreter with status 1. *)
Definition exit_status_on (out : console) (w : world) : Z :=
  match main_on out w start with
  | Ret code _ => code
  | Raise _ _ => 1
  end.

(** What the run printed and spawned. *)
Definition final_trace_on (out : console) (w : world) : trace :=
  match main_on out w start with
  | Ret _ t => t
  | Raise _ t => t
  end.

(** The exit status on a console that can show every line. *)
Definition exit_status (w : world) : Z := exit_status_on accepting w.

(** The trace an outcome ends with. *)
Definition trace_of {A} (o : outcome A) : trace :=
  match o with
  | Ret _ t => t
  | Raise _ t => t
  end.

(** The console can show every line of the trace. *)
Definition accepted (out : console) (t : trace) : Prop :=
  forall line, In line (printed t) -> out line = true.

(** On a console that can show what [m] prints, [m_on] does what [m]
    does. *)
Definition agree {A} (out : console) (m_on m : M A) : Prop :=
  forall t, accepted out (trace_of (m t)) -> m_on t = m t.

(** [m] only adds to what was printed. *)
Definition monotone {A} (m : M A) : Prop :=
  forall t, exists extra, printed (trace_of (m t)) = printed t ++ extra.

(** A console for ASCII text only. *)
Definition ascii_only : console :=
  fun s => forallb (fun c => c <? 0x80) s.

(** ** The identifier rule, declaratively *)

(** The substring after the first [sep]. *)
Fixpoint after_first (sep : Z) (s : pystr) : pystr :=
  match s with
  | [] => []
  | c :: s' => if c =? sep then s' else after_first sep s'
  end.

(** The value of a trimmed [id=] line: what follows the first [=],
    trimmed. *)
Definition id_value (line : pystr) : pystr := strip (after_first 61 line).

Definition id_line (line : pystr) : bool := startswith (str "id=") line.

(** The trimmed lines of the metadata text. *)
Definition trimmed_lines (text : pystr) : list pystr :=
  List.map strip (splitlines text).

(** The rule in the words of the specification: the first line beginning
    with [id=] yields the identifier; an identifier that is empty after
    trimming counts as absent. *)
Definition spec_identifier (text : pystr) : option pystr :=
  match find id_line (trimmed_lines text) with
  | Some line => if truthy (id_value line) then Some (id_value line) else None
  | None => None
  end.

(** The rule the loop follows: the first line beginning with [id=] whose
    value is not empty yields the identifier. *)
Definition identifier (text : pystr) : option pystr :=
  option_map id_value
    (find (fun line => id_line line && truthy (id_value line))
          (trimmed_lines text)).

(** ** Observations on a run *)

(** What the extractor returns for an entry. *)
Definition extracted (w : world) (z : dir_entry) : option pystr :=
  match extract_module_id w z start with
  | Ret r _ => r
  | Raise _ _ => None
  end.

Definition yields_id (w : world) (z : dir_entry) : bool :=
  match extracted w z with Some _ => true | None => false end.

(** The call of the registrar for an identifier and a file name. *)
Definition registration (w : world) (module_id zip_filename : pystr)
  : invocation :=
  {| argv := [ sys_executable w; str "cli.py"; str "track"; str "--add";
               str "id=" ++ module_id;
               str "update_to=" ++ zip_filename;
               str "changelog=" ];
     cwd := script_dir w |}.

(** A call is for the archive named [n] when its [update_to] argument
    names it. *)
Definition registers (n : pystr) (c : invocation) : bool :=
  match nth_error (argv c) 5 with
  | Some a => eqb a (str "update_to=" ++ n)
  | None => false
  end.

Definition calls_for (n : pystr) (t : trace) : list invocation :=
  filter (registers n) (spawned t).

(** The line that announces the processing of the archive named [n]. *)
Definition processing_line (n : pystr) : pystr :=
  nl ++ str "Processing " ++ n ++ str "...".

(** The calls the loop body makes for an entry. *)
Definition calls_of (w : world) (z : dir_entry) : list invocation :=
  match extracted w z with
  | Some module_id => [registration w module_id (name z)]
  | None => []
  end.

(** Both marker entries are members of the archive. *)
Definition has_markers (fl : list zip_entry) : Prop :=
  In updater_script (namelist fl) /\ In update_binary (namelist fl).

(** [module.prop] is a member that reads and decodes to [text]. *)
Definition prop_text (fl : list zip_entry) (text : pystr) : Prop :=
  exists e raw,
    getinfo fl module_prop_name = Some e /\ data e = Data raw /\
    Utf8.decode raw = Some text.

(** A printed line that does not announce the processing of an archive. *)
Definition plain (line : pystr) : Prop :=
  startswith (nl ++ str "Processing ") line = false.

(** A printed line that is plain or announces one of [zs]. *)
Definition announced (zs : list dir_entry) (line : pystr) : Prop :=
  plain line \/ exists z, In z zs /\ line = processing_line (name z).

(** The loop body leaves the count and the calls as they were. *)
Definition skips (w : world) (z : dir_entry) : Prop :=
  forall n t, exists t',
    process_file w z n t = Ret n t' /\ spawned t' = spawned t.

(** In no run over a directory that holds [z] is the registrar called
    for it.  The names of a directory are pairwise distinct. *)
Definition unregistered (w : world) (z : dir_entry) : Prop :=
  forall entries,
    local_dir w = Some entries -> NoDup (List.map name entries) ->
    In z entries -> calls_for (name z) (final_trace w) = [].

(** [t] after printing [lines]. *)
Definition say (t : trace) (lines : list pystr) : trace :=
  {| printed := printed t ++ lines; spawned := spawned t |}.

(** From [t] to [t'] the run spawned exactly [calls] and printed lines
    that all satisfy [P]. *)
Definition grows (P : pystr -> Prop) (calls : list invocation)
  (t t' : trace) : Prop :=
  spawned t' = spawned t ++ calls /\
  exists out, printed t' = printed t ++ out /\ Forall P out.

(** ** Further observations *)



(** The line [add_track] prints before it runs the command. *)
Definition executing_line (c : invocation) : pystr :=
  str "Executing: " ++ join (str " ") (argv c).

(** What [add_track] prints about a completed process. *)
Definition completion_report (module_id : pystr) (r : completed)
  : list pystr :=
  if returncode r =? 0 then
    [str "Successfully added track for " ++ module_id] ++
    (if truthy (strip (stdout r))
     then [str "Output: " ++ strip (stdout r)] else [])
  else
    [str "Failed to add track for " ++ module_id] ++
    (if truthy (strip (stderr r))
     then [str "Error: " ++ strip (stderr r)] else []) ++
    (if truthy (strip (stdout r))
     then [str "Output: " ++ strip (stdout r)] else []).

(** The string holds no line boundary. *)
Definition one_line (s : pystr) : Prop :=
  Forall (fun c => islinebreak c = false) s.

(** The text with every line feed written as carriage return, line feed. *)
Fixpoint crlf (s : pystr) : pystr :=
  match s with
  | [] => []
  | c :: s' => if c =? 0x0A then 0x0D :: 0x0A :: crlf s' else c :: crlf s'
  end.

(** A byte that occurs in no UTF-8 text: 0xC0, 0xC1, 0xF5 and above. *)
Definition never_utf8 (b : byte) : bool :=
  let v := Z.of_N (Byte.to_N b) in
  (v =? 0xC0) || (v =? 0xC1) || (0xF5 <=? v).

(** What [add_track] prints after the command line. *)
Definition run_report (w : world) (module_id : pystr) (r : run_result)
  : list pystr :=
  match r with
  | Completed c => completion_report module_id c
  | NotLaunched e =>
      [str "Error executing command for " ++ module_id ++ str ": " ++
       exn_text w e]
  end.

(** What the extractor prints for an entry. *)
Definition extractor_lines (w : world) (z : dir_entry) : list pystr :=
  printed (trace_of (extract_module_id w z start)).

(** What the loop body prints for an entry, after the calls [history]. *)
Definition file_lines (w : world) (history : list invocation)
  (z : dir_entry) : list pystr :=
  (nl ++ str "Processing " ++ name z ++ str "...") ::
  extractor_lines w z ++
  match extracted w z with
  | Some module_id =>
      [ str "Found module ID: " ++ module_id;
        executing_line (registration w module_id (name z)) ] ++
      run_report w module_id
        (run_process w history (registration w module_id (name z)))
  | None =>
      [ str "Skipping " ++ name z ++ str " - could not extract module ID" ]
  end.

(** What the loop prints for the entries, in their order. *)
Fixpoint loop_lines (w : world) (history : list invocation)
  (zs : list dir_entry) : list pystr :=
  match zs with
  | [] => []
  | z :: rest =>
      file_lines w history z ++ loop_lines w (history ++ calls_of w z) rest
  end.

(** The lines by which the extractor explains that it found no
    identifier in [z]. *)
Definition reason_line (w : world) (z : dir_entry) (line : pystr) : Prop :=
  line = str "Warning: " ++ name z ++
         str " is not a valid Magisk module (missing updater-script or update-binary)"
  \/ line = str "Warning: " ++ name z ++ str " does not contain module.prop"
  \/ line = str "Warning: Could not find 'id=' in module.prop of " ++ name z
  \/ exists e, line = str "Error reading " ++ name z ++ str ": " ++ exn_text w e.

(** ** Proof steps *)

(** Closes [Forall plain [l1; ...; ln]] for lines with a literal head. *)
Ltac all_plain :=
  repeat (apply Forall_cons; [unfold plain; reflexivity|]); apply Forall_nil.

(** Unfolds the extractor down to its library calls. *)
Ltac step_body :=
  unfold extract_module_id, try_except, extract_body, bind, ZipFile,
    zip_read, decode_utf8, raise, ret.

(** ** Sample inputs *)

Definition member (n : pystr) (b : list byte) : zip_entry :=
  {| filename := n; data := Data b |}.

(** An archive with both markers and the given [module.prop]. *)
Definition module_zip (prop : list byte) : zip_open :=
  Opened [ member updater_script []; member update_binary [];
           member module_prop_name prop ].

(** The path [local] for a listing, or for no directory at all. *)
Definition path_of (entries : option (list dir_entry)) : path_state :=
  match entries with
  | Some l => Directory l
  | None => Missing
  end.

(** A world whose registrar always succeeds silently. *)
Definition quiet_at (p : path_state) : world :=
  {| sys_executable := str "python3";
     script_dir := str ".";
     local_path := p;
     run_process := fun _ _ =>
       Completed {| returncode := 0; stdout := []; stderr := [] |};
     exn_text := fun _ => str "error" |}.

Definition quiet (entries : option (list dir_entry)) : world :=
  quiet_at (path_of entries).

(** A well-formed archive whose name is not ASCII. *)
Definition example_accent : dir_entry :=
  {| name := str "caf" ++ [0xE9] ++ str ".zip";
     archive := module_zip (bytes_of "id=com.example.mod") |}.

Definition example_mod : dir_entry :=
  {| name := str "mod.zip";
     archive := module_zip (bytes_of "id=com.example.mod") |}.

(** The only [id=] line has a blank value. *)
Definition example_blank : dir_entry :=
  {| name := str "blank.zip"; archive := module_zip (bytes_of "id=  ") |}.

(** An [id=] line without a value, then one with a value. *)
Definition example_two_ids : dir_entry :=
  {| name := str "two.zip";
     archive := module_zip
       (bytes_of "id=" ++ [x0a] ++ bytes_of "id=com.example.mod") |}.

(** An archive without [update-binary]. *)
Definition example_no_binary : dir_entry :=
  {| name := str "half.zip";
     archive := Opened [ member updater_script [];
                         member module_prop_name
                           (bytes_of "id=com.example.mod") ] |}.

(** An archive with both markers and no [module.prop]. *)
Definition example_no_prop : dir_entry :=
  {| name := str "bare.zip";
     archive := Opened [ member updater_script [];
                         member update_binary [] ] |}.

(** A well-formed archive under an upper-case extension. *)
Definition example_upper : dir_entry :=
  {| name := str "MOD.ZIP";
     archive := module_zip (bytes_of "id=com.example.upper") |}.

(** A world whose registrar cannot be launched. *)
Definition broken (entries : option (list dir_entry)) : world :=
  {| sys_executable := str "python3";
     script_dir := str ".";
     local_path := path_of entries;
     run_process := fun _ _ => NotLaunched (LaunchError (str "no such file"));
     exn_text := fun _ => str "error" |}.

(** A [module.prop] of two lines with Windows line ends; the identifier
    holds an equals sign and a space. *)
Definition example_full : dir_entry :=
  {| name := str "full.zip";
     archive := module_zip
       (bytes_of "id=com.example=mod v2" ++ [x0d; x0a] ++
        bytes_of "name=Example") |}.

(** A [module.prop] that starts with a byte order mark. *)
Definition example_bom : dir_entry :=
  {| name := str "bom.zip";
     archive := module_zip
       ([xef; xbb; xbf] ++ bytes_of "id=com.example.mod") |}.

(** Two lines, ended by line feeds. *)
Definition example_lf : dir_entry :=
  {| name := str "lf.zip";
     archive := module_zip
       (bytes_of "name=Example" ++ [x0a] ++
        bytes_of "id=com.example.mod" ++ [x0a]) |}.

(** The same two lines, ended by carriage return and line feed. *)
Definition example_crlf : dir_entry :=
  {| name := str "crlf.zip";
     archive := module_zip
       (bytes_of "name=Example" ++ [x0d; x0a] ++
        bytes_of "id=com.example.mod" ++ [x0d; x0a]) |}.

(** A good [id=] line, then a line that ends in the byte 0xFF. *)
Definition example_latin1 : dir_entry :=
  {| name := str "latin1.zip";
     archive := module_zip
       (bytes_of "id=com.example.mod" ++ [x0a] ++
        bytes_of "author=" ++ [xff]) |}.

Example splitlines_crlf :
  splitlines (str "a" ++ [13; 10] ++ str "b" ++ [10]) = [str "a"; str "b"].
Proof. reflexivity. Qed.

Example splitlines_blank :
  splitlines ([10; 13] ++ str "x") = [[]; []; str "x"].
Proof. reflexivity. Qed.

Example strip_both : strip (str "  id= x  ") = str "id= x".
Proof. reflexivity. Qed.

Example split_once_eq :
  split_once 61 (str "id=a=b") = [str "id"; str "a=b"].
Proof. reflexivity. Qed.

Example of_nat_12 : of_nat 12 = str "12".
Proof. reflexivity. Qed.

Example of_nat_0 : of_nat 0 = str "0".
Proof. reflexivity. Qed.

Example decode_ascii : Utf8.decode (bytes_of "id=a") = Some (str "id=a").
Proof. reflexivity. Qed.

Example decode_two_bytes : Utf8.decode [xc3; xa9] = Some [0xE9].
Proof. reflexivity. Qed.

Example decode_euro : Utf8.decode [xe2; x82; xac] = Some [0x20AC].
Proof. reflexivity. Qed.

Example decode_astral : Utf8.decode [xf0; x9f; x98; x80] = Some [0x1F600].
Proof. reflexivity. Qed.

Example decode_surrogate : Utf8.decode [xed; xa0; x80] = None.
Proof. reflexivity. Qed.

Example decode_overlong : Utf8.decode [xc0; x80] = None.
Proof. reflexivity. Qed.

Example decode_latin1 : Utf8.decode [x69; xe9] = None.
Proof. reflexivity. Qed.

Example run_with_broken_registrar :
  exit_status (broken (Some [example_mod; example_blank])) = 0 /\
  printed (final_trace (broken (Some [example_mod; example_blank]))) =
    [ str "Found 2 zip files in local/ directory";
      nl ++ str "Processing mod.zip...";
      str "Found module ID: com.example.mod";
      str "Executing: python3 cli.py track --add id=com.example.mod update_to=mod.zip changelog=";
      str "Error executing command for com.example.mod: error";
      nl ++ str "Processing blank.zip...";
      str "Warning: Could not find 'id=' in module.prop of blank.zip";
      str "Skipping blank.zip - could not extract module ID";
      nl ++ str "Processed 2 files, added 1 tracks";
      nl ++ str "To sync the modules, run: python cli.py sync";
      str "To generate the index, run: python cli.py index" ].
Proof. split; reflexivity. Qed.

Example run_with_hints :
  printed (final_trace (quiet (Some [example_mod; example_blank]))) =
    [ str "Found 2 zip files in local/ directory";
      nl ++ str "Processing mod.zip...";
      str "Found module ID: com.example.mod";
      str "Executing: python3 cli.py track --add id=com.example.mod update_to=mod.zip changelog=";
      str "Successfully added track for com.example.mod";
      nl ++ str "Processing blank.zip...";
      str "Warning: Could not find 'id=' in module.prop of blank.zip";
      str "Skipping blank.zip - could not extract module ID";
      nl ++ str "Processed 2 files, added 1 tracks";
      nl ++ str "To sync the modules, run: python cli.py sync";
      str "To generate the index, run: python cli.py index" ] /\
  loop_lines (quiet (Some [example_mod; example_blank])) []
    [example_mod; example_blank] =
    [ nl ++ str "Processing mod.zip...";
      str "Found module ID: com.example.mod";
      str "Executing: python3 cli.py track --add id=com.example.mod update_to=mod.zip changelog=";
      str "Successfully added track for com.example.mod";
      nl ++ str "Processing blank.zip...";
      str "Warning: Could not find 'id=' in module.prop of blank.zip";
      str "Skipping blank.zip - could not extract module ID" ].
Proof. split; reflexivity. Qed.

Example run_on_ascii_console :
  exit_status_on ascii_only (quiet (Some [example_mod; example_accent])) = 1 /\
  final_trace_on ascii_only (quiet (Some [example_mod; example_accent])) =
    {| printed :=
         [ str "Found 2 zip files in local/ directory";
           nl ++ str "Processing mod.zip...";
           str "Found module ID: com.example.mod";
           str "Executing: python3 cli.py track --add id=com.example.mod update_to=mod.zip changelog=";
           str "Successfully added track for com.example.mod" ];
       spawned := [registration (quiet None) (str "com.example.mod")
                     (str "mod.zip")] |}.
Proof. split; reflexivity. Qed.

Example run_without_directory :
  exit_status (quiet None) = 1 /\
  printed (final_trace (quiet None)) =
    [str "Error: local/ directory does not exist"].
Proof. split; reflexivity. Qed.

Example glob_case :
  List.map name (glob zip_pattern [example_upper; example_mod]) = [str "mod.zip"].
Proof. reflexivity. Qed.

(** * Properties *)

(** ** Strings *)

Lemma eqb_refl (a : pystr) : eqb a a = true.
Proof.
  induction a as [|x a IH]; simpl; [reflexivity|].
  now rewrite Z.eqb_refl.
Qed.

Lemma eqb_eq (a b : pystr) : eqb a b = true <-> a = b.
Proof.
  split; [|intros ->; apply eqb_refl].
  revert b; induction a as [|x a IH]; intros [|y b]; simpl; try discriminate.
  - reflexivity.
  - intros H. apply andb_true_iff in H as [Hx Hab].
    apply Z.eqb_eq in Hx. subst y. f_equal. now apply IH.
Qed.

Lemma contains_In (x : pystr) (l : list pystr) :
  contains x l = true <-> In x l.
Proof.
  unfold contains. rewrite existsb_exists. split.
  - intros (y & Hy & E). apply eqb_eq in E. now subst.
  - intros H. exists x. split; [assumption | apply eqb_refl].
Qed.

Lemma contains_false (x : pystr) (l : list pystr) :
  contains x l = false <-> ~ In x l.
Proof.
  rewrite <- contains_In. destruct (contains x l); split; intros H;
    try reflexivity; try discriminate; try (intros E; discriminate).
  now destruct H.
Qed.

Lemma startswith_prefix (p s : pystr) :
  startswith p s = true <-> exists r, s = p ++ r.
Proof.
  revert s. induction p as [|x p IH]; intros s; simpl.
  - split; [intros _; now exists s | reflexivity].
  - destruct s as [|y s].
    + split; [discriminate | intros (r & E); discriminate].
    + rewrite andb_true_iff, Z.eqb_eq, IH. split.
      * intros (-> & r & ->). now exists r.
      * intros (r & E). injection E as -> ->. split; [reflexivity | now exists r].
Qed.

Lemma truthy_nonempty (s : pystr) : truthy s = true <-> s <> [].
Proof. destruct s; simpl; split; congruence. Qed.

(** On a line that begins with [id=], [line.split("=", 1)[1]] is the
    substring after the first [=]: the index never fails. *)
Lemma id_line_field (line : pystr) :
  id_line line = true ->
  nth_error (split_once 61 line) 1 = Some (after_first 61 line).
Proof.
  unfold id_line. intros H. apply startswith_prefix in H as (r & ->).
  reflexivity.
Qed.

Lemma find_first_after {A} (f : A -> bool) (pre : list A) (x : A)
  (post : list A) :
  (forall y, In y pre -> f y = false) -> f x = true ->
  find f (pre ++ x :: post) = Some x.
Proof.
  induction pre as [|a pre IH]; intros Hpre Hx; simpl.
  - now rewrite Hx.
  - rewrite (Hpre a (or_introl eq_refl)). apply IH; [|exact Hx].
    intros y Hy. apply Hpre. now right.
Qed.

Lemma find_none_all {A} (f : A -> bool) (l : list A) :
  (forall y, In y l -> f y = false) -> find f l = None.
Proof.
  induction l as [|a l IH]; intros H; simpl; [reflexivity|].
  rewrite (H a (or_introl eq_refl)). apply IH.
  intros y Hy. apply H. now right.
Qed.

(** ** The line loop *)

Lemma scan_lines_cons (line : pystr) (rest : list pystr) :
  scan_lines (line :: rest) =
    if id_line (strip line) then
      field <- index (split_once 61 (strip line)) 1 ;;
      if truthy (strip field) then ret (Some (strip field))
      else scan_lines rest
    else scan_lines rest.
Proof. reflexivity. Qed.

Lemma scan_lines_find (lines : list pystr) (t : trace) :
  scan_lines lines t =
    Ret (option_map id_value
           (find (fun line => id_line line && truthy (id_value line))
                 (List.map strip lines))) t.
Proof.
  induction lines as [|line rest IH]; [reflexivity|].
  rewrite scan_lines_cons. cbn [List.map find].
  destruct (id_line (strip line)) eqn:Hid; cbn [andb]; [|exact IH].
  unfold bind, index. rewrite (id_line_field _ Hid).
  unfold ret at 1. fold (id_value (strip line)).
  destruct (truthy (id_value (strip line))); [reflexivity | exact IH].
Qed.

(** ** Traces only grow *)

Lemma say_nil (t : trace) : say t [] = t.
Proof. destruct t; unfold say; simpl. now rewrite app_nil_r. Qed.

Lemma say_say (t : trace) (a b : list pystr) : say (say t a) b = say t (a ++ b).
Proof. unfold say; simpl. now rewrite app_assoc. Qed.

Lemma print_say (s : pystr) (t : trace) : print s t = Ret tt (say t [s]).
Proof. reflexivity. Qed.

Lemma grows_refl (P : pystr -> Prop) (t : trace) : grows P [] t t.
Proof.
  split; [now rewrite app_nil_r|].
  exists []. split; [now rewrite app_nil_r | constructor].
Qed.

Lemma grows_trans (P : pystr -> Prop) (c1 c2 : list invocation)
  (t1 t2 t3 : trace) :
  grows P c1 t1 t2 -> grows P c2 t2 t3 -> grows P (c1 ++ c2) t1 t3.
Proof.
  intros (S1 & o1 & P1 & F1) (S2 & o2 & P2 & F2). split.
  - now rewrite S2, S1, app_assoc.
  - exists (o1 ++ o2). split.
    + now rewrite P2, P1, app_assoc.
    + apply Forall_app. now split.
Qed.

Lemma grows_say (P : pystr -> Prop) (t : trace) (lines : list pystr) :
  Forall P lines -> grows P [] t (say t lines).
Proof.
  intros F. split; [simpl; now rewrite app_nil_r|].
  exists lines. now split.
Qed.

Lemma grows_weaken (P Q : pystr -> Prop) (c : list invocation) (t t' : trace) :
  (forall l, P l -> Q l) -> grows P c t t' -> grows Q c t t'.
Proof.
  intros PQ (S1 & o & P1 & F). split; [assumption|].
  exists o. split; [assumption|]. eapply Forall_impl; eassumption.
Qed.

(** ** The extractor, case by case *)

Lemma extract_open_fails (w : world) (z : dir_entry) (e : exn) (t : trace) :
  archive z = OpenFails e ->
  extract_module_id w z t =
    Ret None (say t [str "Error reading " ++ name z ++ str ": " ++ exn_text w e]).
Proof. intros H. step_body. now rewrite H. Qed.

Lemma extract_missing_marker (w : world) (z : dir_entry)
  (fl : list zip_entry) (t : trace) :
  archive z = Opened fl ->
  contains updater_script (namelist fl) = false \/
  contains update_binary (namelist fl) = false ->
  extract_module_id w z t =
    Ret None (say t [str "Warning: " ++ name z ++
      str " is not a valid Magisk module (missing updater-script or update-binary)"]).
Proof.
  intros H Hm. step_body. rewrite H.
  replace (negb (contains updater_script (namelist fl))
           || negb (contains update_binary (namelist fl))) with true;
    [reflexivity|].
  destruct Hm as [-> | ->]; simpl; [reflexivity | now rewrite orb_true_r].
Qed.

Lemma extract_no_prop (w : world) (z : dir_entry)
  (fl : list zip_entry) (t : trace) :
  archive z = Opened fl ->
  contains updater_script (namelist fl) = true ->
  contains update_binary (namelist fl) = true ->
  contains module_prop_name (namelist fl) = false ->
  extract_module_id w z t =
    Ret None (say t [str "Warning: " ++ name z ++
                     str " does not contain module.prop"]).
Proof.
  intros H H1 H2 H3. step_body. now rewrite H, H1, H2, H3.
Qed.

(** With the markers and [module.prop] present, the outcome is decided
    by the member's data. *)
Lemma extract_with_prop (w : world) (z : dir_entry)
  (fl : list zip_entry) (t : trace) :
  archive z = Opened fl ->
  contains updater_script (namelist fl) = true ->
  contains update_binary (namelist fl) = true ->
  contains module_prop_name (namelist fl) = true ->
  extract_module_id w z t =
    match getinfo fl module_prop_name with
    | None =>
        Ret None (say t [str "Error reading " ++ name z ++ str ": " ++
                         exn_text w (KeyError module_prop_name)])
    | Some e =>
        match data e with
        | Unreadable x =>
            Ret None (say t [str "Error reading " ++ name z ++ str ": " ++
                             exn_text w x])
        | Data raw =>
            match Utf8.decode raw with
            | None =>
                Ret None (say t [str "Error reading " ++ name z ++ str ": " ++
                                 exn_text w (UnicodeDecodeError raw)])
            | Some text =>
                match identifier text with
                | Some module_id => Ret (Some module_id) t
                | None =>
                    Ret None (say t
                      [str "Warning: Could not find 'id=' in module.prop of " ++
                       name z])
                end
            end
        end
    end.
Proof.
  intros H H1 H2 H3. step_body. rewrite H, H1, H2, H3. cbn [negb orb].
  destruct (getinfo fl module_prop_name) as [e|]; [|reflexivity].
  destruct (data e) as [raw|x]; [|reflexivity].
  destruct (Utf8.decode raw) as [text|]; [|reflexivity].
  rewrite scan_lines_find. fold (trimmed_lines text). fold (identifier text).
  destruct (identifier text); reflexivity.
Qed.

Lemma getinfo_listed (fl : list zip_entry) (n : pystr) (e : zip_entry) :
  getinfo fl n = Some e -> contains n (namelist fl) = true.
Proof.
  unfold getinfo. intros H. apply find_some in H as [Hin Heq].
  apply eqb_eq in Heq. apply contains_In. unfold namelist.
  rewrite Heq. apply in_map. now apply in_rev.
Qed.

Lemma identifier_truthy (text module_id : pystr) :
  identifier text = Some module_id -> truthy module_id = true.
Proof.
  unfold identifier.
  destruct (find _ (trimmed_lines text)) as [line|] eqn:F; [|discriminate].
  apply find_some in F as [_ F]. apply andb_true_iff in F as [_ F].
  simpl. now intros [= <-].
Qed.

(** The extractor returns for every trace, returns the same value
    whatever was printed before, prints plain lines and spawns nothing. *)
Lemma extract_shape (w : world) (z : dir_entry) :
  exists out, Forall plain out /\
    forall t, extract_module_id w z t = Ret (extracted w z) (say t out).
Proof.
  assert (U : forall r out, Forall plain out ->
            (forall t, extract_module_id w z t = Ret r (say t out)) ->
            exists out, Forall plain out /\
              forall t, extract_module_id w z t = Ret (extracted w z) (say t out)).
  { intros r out F H. exists out. split; [assumption|]. intros t.
    unfold extracted. rewrite (H start). apply H. }
  destruct (archive z) as [fl|e] eqn:A.
  - destruct (contains updater_script (namelist fl)) eqn:C1;
      [destruct (contains update_binary (namelist fl)) eqn:C2;
        [destruct (contains module_prop_name (namelist fl)) eqn:C3|]|].
    + pose proof (extract_with_prop w z fl) as E.
      specialize (fun t => E t A C1 C2 C3).
      destruct (getinfo fl module_prop_name) as [e|];
        [destruct (data e) as [raw|x];
          [destruct (Utf8.decode raw) as [text|];
            [destruct (identifier text) as [i|]|]|]|].
      * apply (U (Some i) []); [all_plain|].
        intros t. rewrite say_nil. apply E.
      * eapply U; [|exact E]. all_plain.
      * eapply U; [|exact E]. all_plain.
      * eapply U; [|exact E]. all_plain.
      * eapply U; [|exact E]. all_plain.
    + eapply U; [|exact (fun t => extract_no_prop w z fl t A C1 C2 C3)].
      all_plain.
    + eapply U;
        [|exact (fun t => extract_missing_marker w z fl t A (or_intror C2))].
      all_plain.
    + eapply U;
        [|exact (fun t => extract_missing_marker w z fl t A (or_introl C1))].
      all_plain.
  - eapply U; [|exact (fun t => extract_open_fails w z e t A)].
    all_plain.
Qed.

(** What the extractor returns, from the archive. *)
Lemma extracted_cases (w : world) (z : dir_entry) :
  match archive z with
  | OpenFails _ => extracted w z = None
  | Opened fl =>
      if contains updater_script (namelist fl)
         && contains update_binary (namelist fl)
         && contains module_prop_name (namelist fl)
      then
        match getinfo fl module_prop_name with
        | Some {| data := Data raw |} =>
            match Utf8.decode raw with
            | Some text => extracted w z = identifier text
            | None => extracted w z = None
            end
        | _ => extracted w z = None
        end
      else extracted w z = None
  end.
Proof.
  unfold extracted.
  destruct (archive z) as [fl|e] eqn:A.
  - destruct (contains updater_script (namelist fl)) eqn:C1;
      [destruct (contains update_binary (namelist fl)) eqn:C2;
        [destruct (contains module_prop_name (namelist fl)) eqn:C3|]|];
      cbn [andb].
    + rewrite (extract_with_prop w z fl start A C1 C2 C3).
      destruct (getinfo fl module_prop_name) as [[fn [raw|x]]|];
        cbn [data]; try reflexivity.
      destruct (Utf8.decode raw) as [text|]; [|reflexivity].
      destruct (identifier text); reflexivity.
    + rewrite (extract_no_prop w z fl start A C1 C2 C3). reflexivity.
    + rewrite (extract_missing_marker w z fl start A (or_intror C2)).
      reflexivity.
    + rewrite (extract_missing_marker w z fl start A (or_introl C1)).
      reflexivity.
  - rewrite (extract_open_fails w z e start A). reflexivity.
Qed.

(** An identifier is returned only for an archive with both markers and
    a [module.prop] whose text has such an identifier. *)
Lemma extracted_some (w : world) (z : dir_entry) (module_id : pystr) :
  extracted w z = Some module_id ->
  exists fl text,
    archive z = Opened fl /\ has_markers fl /\ prop_text fl text /\
    identifier text = Some module_id.
Proof.
  intros H. pose proof (extracted_cases w z) as C.
  destruct (archive z) as [fl|e]; [|congruence].
  destruct (contains updater_script (namelist fl)) eqn:C1;
    [destruct (contains update_binary (namelist fl)) eqn:C2;
      [destruct (contains module_prop_name (namelist fl)) eqn:C3|]|];
    cbn [andb] in C; try congruence.
  destruct (getinfo fl module_prop_name) as [[fn [raw|x]]|] eqn:G;
    try congruence.
  destruct (Utf8.decode raw) as [text|] eqn:D; try congruence.
  exists fl, text. split; [reflexivity|]. split.
  - split; now apply contains_In.
  - split; [|congruence]. now exists {| filename := fn; data := Data raw |}, raw.
Qed.

Lemma extracted_well_formed (w : world) (z : dir_entry)
  (fl : list zip_entry) (text : pystr) :
  archive z = Opened fl -> has_markers fl -> prop_text fl text ->
  extracted w z = identifier text.
Proof.
  intros A [M1 M2] (e & raw & G & Dt & Dc).
  pose proof (extracted_cases w z) as C. rewrite A in C.
  apply contains_In in M1, M2. rewrite M1, M2, (getinfo_listed _ _ _ G) in C.
  cbn [andb] in C. rewrite G in C. destruct e as [fn d]. cbn [data] in Dt.
  subst d. now rewrite Dc in C.
Qed.

Lemma found_extracted (w : world) (z : dir_entry) :
  found (extracted w z) = extracted w z.
Proof.
  destruct (extracted w z) as [i|] eqn:E; [|reflexivity].
  apply extracted_some in E as (fl & text & _ & _ & _ & I).
  simpl. now rewrite (identifier_truthy _ _ I).
Qed.

(** ** The registrar *)

(** Whatever the external program does, [add_track] returns, has called
    it once with the fixed command line, and has printed plain lines. *)
Lemma add_track_grows (w : world) (module_id zip_filename : pystr) (t : trace) :
  exists t', add_track w module_id zip_filename t = Ret tt t' /\
             grows plain [registration w module_id zip_filename] t t'.
Proof.
  unfold add_track, try_except, bind, subprocess_run, when, print, ret.
  cbn [printed spawned].
  change {| argv := track_cmd w module_id zip_filename; cwd := script_dir w |}
    with (registration w module_id zip_filename).
  destruct (run_process w (spawned t) (registration w module_id zip_filename))
    as [r|e].
  - destruct (returncode r =? 0);
      [destruct (truthy (strip (stdout r)))
      |destruct (truthy (strip (stderr r)));
       destruct (truthy (strip (stdout r)))];
      (eexists; split; [reflexivity|]; split; [reflexivity|];
       cbn [printed]; rewrite <- ?app_assoc; eexists; split;
       [reflexivity | all_plain]).
  - eexists; split; [reflexivity|]; split; [reflexivity|].
    cbn [printed]; rewrite <- ?app_assoc; eexists; split;
      [reflexivity | all_plain].
Qed.

(** ** The loop *)

Lemma process_file_grows (w : world) (z : dir_entry) (n : nat) (t : trace) :
  exists t',
    process_file w z n t =
      Ret (if yields_id w z then S n else n) t' /\
    grows (announced [z]) (calls_of w z) t t'.
Proof.
  destruct (extract_shape w z) as (out & Fout & E).
  unfold process_file, bind. rewrite print_say, E, found_extracted.
  fold (processing_line (name z)).
  unfold yields_id, calls_of.
  set (t0 := say (say t [processing_line (name z)]) out).
  assert (G0 : grows (announced [z]) [] t t0).
  { unfold t0. rewrite say_say. apply grows_say. apply Forall_cons.
    - right. exists z. split; [now left | reflexivity].
    - eapply Forall_impl; [|exact Fout]. intros l Hl. now left. }
  destruct (extracted w z) as [i|]; rewrite print_say; cbv beta iota.
  - match goal with
    | |- context [add_track w i (name z) ?x] =>
        destruct (add_track_grows w i (name z) x) as (t' & -> & G)
    end.
    exists t'. split; [reflexivity|].
    apply (grows_trans _ [] _ _ _ _ G0).
    eapply (grows_trans _ []); [|eapply grows_weaken; [|exact G]].
    + apply grows_say. apply Forall_cons; [|apply Forall_nil].
      left. unfold plain. reflexivity.
    + intros l Hl. now left.
  - eexists. split; [reflexivity|].
    apply (grows_trans _ [] [] _ _ _ G0).
    apply grows_say. apply Forall_cons; [|apply Forall_nil].
    left. unfold plain. reflexivity.
Qed.

Lemma announced_mono (zs zs' : list dir_entry) (line : pystr) :
  (forall z, In z zs -> In z zs') -> announced zs line -> announced zs' line.
Proof.
  intros Sub [P | (z & Hz & ->)]; [now left|].
  right. exists z. split; [now apply Sub | reflexivity].
Qed.

Lemma for_each_grows (w : world) (zs : list dir_entry) (n : nat) (t : trace) :
  exists t',
    for_each w zs n t =
      Ret (n + List.length (filter (yields_id w) zs))%nat t' /\
    grows (announced zs) (flat_map (calls_of w) zs) t t'.
Proof.
  revert n t. induction zs as [|z zs IH]; intros n t.
  - exists t. split; [simpl; unfold ret; f_equal; lia|]. apply grows_refl.
  - destruct (process_file_grows w z n t) as (t1 & E1 & G1).
    destruct (IH (if yields_id w z then S n else n) t1) as (t2 & E2 & G2).
    exists t2. split.
    + cbn [for_each]. unfold bind. rewrite E1, E2. f_equal.
      cbn [filter]. destruct (yields_id w z); cbn [List.length]; lia.
    + cbn [flat_map]. eapply grows_trans.
      * eapply grows_weaken; [|exact G1].
        intros l. apply announced_mono. intros x [->|[]]. now left.
      * eapply grows_weaken; [|exact G2].
        intros l. apply announced_mono. intros x Hx. now right.
Qed.

(** ** The scanner *)

Lemma fnmatchcase_run (pat : list glob_token) (s : pystr) :
  fnmatchcase (AnyRun :: pat) s =
    fnmatchcase pat s
    || match s with [] => false | _ :: s' => fnmatchcase (AnyRun :: pat) s' end.
Proof. destruct s; reflexivity. Qed.

Lemma fnmatchcase_run_split (pat : list glob_token) (s : pystr) :
  fnmatchcase (AnyRun :: pat) s = true <->
  exists a b, s = a ++ b /\ fnmatchcase pat b = true.
Proof.
  induction s as [|c s IH]; rewrite fnmatchcase_run.
  - rewrite orb_false_r. split.
    + intros H. now exists [], [].
    + intros (a & b & E & H). symmetry in E.
      apply app_eq_nil in E as [_ ->]. exact H.
  - rewrite orb_true_iff, IH. split.
    + intros [H | (a & b & -> & H)].
      * now exists [], (c :: s).
      * now exists (c :: a), b.
    + intros ([|x a] & b & E & H).
      * left. simpl in E. now subst b.
      * right. injection E as -> ->. now exists a, b.
Qed.

Lemma fnmatchcase_literal (l s : pystr) :
  fnmatchcase (List.map Literal l) s = eqb l s.
Proof.
  revert s. induction l as [|c l IH]; intros [|d s]; simpl; try reflexivity.
  now rewrite IH.
Qed.

(** ["*.zip"] matches exactly the names that end in [.zip]. *)
Lemma zip_pattern_suffix (n : pystr) :
  fnmatchcase zip_pattern n = true <-> exists stem, n = stem ++ str ".zip".
Proof.
  unfold zip_pattern. rewrite fnmatchcase_run_split. split.
  - intros (a & b & -> & H). rewrite fnmatchcase_literal in H.
    apply eqb_eq in H. subst b. now exists a.
  - intros (stem & ->). exists stem, (str ".zip"). split; [reflexivity|].
    rewrite fnmatchcase_literal. apply eqb_refl.
Qed.

Lemma glob_In (pat : list glob_token) (entries : list dir_entry) (z : dir_entry) :
  In z (glob pat entries) <-> In z entries /\ fnmatchcase pat (name z) = true.
Proof. unfold glob. apply filter_In. Qed.

(** ** The whole run *)

Lemma main_missing (w : world) :
  local_dir w = None ->
  main w start =
    Ret 1 (say start [str "Error: local/ directory does not exist"]).
Proof. intros H. unfold main. rewrite H. reflexivity. Qed.

Lemma main_no_files (w : world) (entries : list dir_entry) :
  local_dir w = Some entries ->
  glob zip_pattern entries = [] ->
  main w start =
    Ret 0 (say start [str "No .zip files found in local/ directory"]).
Proof. intros H G. unfold main. rewrite H. cbv zeta. rewrite G. reflexivity. Qed.

Lemma main_files (w : world) (entries zs : list dir_entry) :
  local_dir w = Some entries ->
  glob zip_pattern entries = zs ->
  zs <> [] ->
  exists t,
    main w start = Ret 0 t /\
    spawned t = flat_map (calls_of w) zs /\
    In (summary (List.length zs) (List.length (filter (yields_id w) zs)))
       (printed t) /\
    Forall (announced zs) (printed t).
Proof.
  intros H Z G. unfold main. rewrite H. cbv zeta. rewrite Z. clear Z.
  destruct zs as [|z0 zs']; [now destruct G|].
  set (zs := z0 :: zs').
  unfold bind. rewrite print_say.
  match goal with
  | |- context [for_each w zs 0%nat ?x] =>
      destruct (for_each_grows w zs 0%nat x)
        as (t1 & -> & (S1 & out & P1 & F1))
  end.
  rewrite print_say. cbn [Nat.add].
  set (k := List.length (filter (yields_id w) zs)) in *.
  unfold say, start in S1, P1. cbn [printed spawned app] in S1, P1.
  assert (Fs : Forall (announced zs)
                 (printed t1 ++ [summary (List.length zs) k])).
  { rewrite P1. apply Forall_app. split.
    - apply Forall_cons; [left; unfold plain; reflexivity|].
      exact F1.
    - apply Forall_cons; [left; unfold plain; reflexivity|apply Forall_nil]. }
  assert (Is : In (summary (List.length zs) k)
                 (printed t1 ++ [summary (List.length zs) k])).
  { apply in_or_app. right. now left. }
  unfold when. destruct (0 <? k)%nat.
  - unfold bind. rewrite !print_say. eexists. split; [reflexivity|].
    cbn [say printed spawned]. split; [exact S1|]. split.
    + apply in_or_app. left. apply in_or_app. left. exact Is.
    + apply Forall_app. split; [apply Forall_app; split; [exact Fs|]|].
      * apply Forall_cons; [left; unfold plain; reflexivity|apply Forall_nil].
      * apply Forall_cons; [left; unfold plain; reflexivity|apply Forall_nil].
  - eexists. split; [reflexivity|].
    cbn [say printed spawned]. split; [exact S1|]. split; assumption.
Qed.

Lemma run_shape (w : world) :
  match local_dir w with
  | None =>
      main w start =
        Ret 1 (say start [str "Error: local/ directory does not exist"])
  | Some entries =>
      exists t,
        main w start = Ret 0 t /\
        spawned t = flat_map (calls_of w) (glob zip_pattern entries) /\
        Forall (announced (glob zip_pattern entries)) (printed t)
  end.
Proof.
  destruct (local_dir w) as [entries|] eqn:L; [|now apply main_missing].
  destruct (glob zip_pattern entries) as [|z0 zs] eqn:G.
  - rewrite (main_no_files w entries L G). eexists. split; [reflexivity|].
    split; [reflexivity|].
    apply Forall_cons; [left; unfold plain; reflexivity | apply Forall_nil].
  - destruct (main_files w entries (z0 :: zs) L G) as (t & E & S1 & _ & F);
      [discriminate|].
    exists t. now repeat split.
Qed.

Lemma run_spawned (w : world) (entries : list dir_entry) :
  local_dir w = Some entries ->
  spawned (final_trace w) = flat_map (calls_of w) (glob zip_pattern entries).
Proof.
  intros L. pose proof (run_shape w) as R. rewrite L in R.
  destruct R as (t & E & S1 & _). unfold final_trace. now rewrite E.
Qed.

(** ** Calls and the archives they are for *)

Lemma registers_registration (w : world) (module_id n n' : pystr) :
  registers n (registration w module_id n') = eqb n' n.
Proof.
  unfold registers, registration. cbn [argv nth_error].
  destruct (eqb n' n) eqn:E.
  - apply eqb_eq in E. subst. apply eqb_refl.
  - destruct (eqb (str "update_to=" ++ n') (str "update_to=" ++ n)) eqn:E';
      [|reflexivity].
    apply eqb_eq in E'. apply app_inv_head in E'. subst.
    now rewrite eqb_refl in E.
Qed.

Lemma filter_calls_of (w : world) (n : pystr) (z : dir_entry) :
  filter (registers n) (calls_of w z) =
    if eqb (name z) n then calls_of w z else [].
Proof.
  unfold calls_of. destruct (extracted w z) as [i|].
  - cbn [filter]. rewrite registers_registration.
    now destruct (eqb (name z) n).
  - now destruct (eqb (name z) n).
Qed.

Lemma calls_for_other (w : world) (n : pystr) (zs : list dir_entry) :
  (forall z, In z zs -> name z <> n) ->
  filter (registers n) (flat_map (calls_of w) zs) = [].
Proof.
  induction zs as [|a zs IH]; intros H; [reflexivity|].
  cbn [flat_map]. rewrite filter_app, filter_calls_of, IH.
  - destruct (eqb (name a) n) eqn:E; [|reflexivity].
    apply eqb_eq in E. exfalso. apply (H a); [now left | exact E].
  - intros z Hz. apply H. now right.
Qed.

Lemma calls_for_unique (w : world) (z : dir_entry) (zs : list dir_entry) :
  NoDup (List.map name zs) -> In z zs ->
  filter (registers (name z)) (flat_map (calls_of w) zs) = calls_of w z.
Proof.
  induction zs as [|a zs IH]; intros N H; [now destruct H|].
  cbn [List.map] in N. apply NoDup_cons_iff in N as [Na N].
  cbn [flat_map]. rewrite filter_app, filter_calls_of.
  destruct H as [-> | H].
  - rewrite eqb_refl, calls_for_other; [apply app_nil_r|].
    intros x Hx E. apply Na. rewrite <- E. now apply in_map.
  - rewrite (IH N H). destruct (eqb (name a) (name z)) eqn:E; [|reflexivity].
    apply eqb_eq in E. exfalso. apply Na. rewrite E. now apply in_map.
Qed.

Lemma NoDup_glob (pat : list glob_token) (entries : list dir_entry) :
  NoDup (List.map name entries) -> NoDup (List.map name (glob pat entries)).
Proof.
  induction entries as [|a l IH]; intros N; [constructor|].
  cbn [List.map] in N. apply NoDup_cons_iff in N as [Na N].
  unfold glob. cbn [filter]. fold (glob pat l).
  destruct (fnmatchcase pat (name a)); [|now apply IH].
  cbn [List.map]. apply NoDup_cons; [|now apply IH].
  intros H. apply Na. apply in_map_iff in H as (x & E & Hx).
  apply glob_In in Hx as [Hx _]. rewrite <- E. now apply in_map.
Qed.

(** The calls of a run for an entry of the directory: those of the loop
    body when the entry is listed, none otherwise. *)
Lemma run_calls_for (w : world) (entries : list dir_entry) (z : dir_entry) :
  local_dir w = Some entries -> NoDup (List.map name entries) ->
  In z entries ->
  calls_for (name z) (final_trace w) =
    if fnmatchcase zip_pattern (name z) then calls_of w z else [].
Proof.
  intros L N H. unfold calls_for. rewrite (run_spawned w entries L).
  destruct (fnmatchcase zip_pattern (name z)) eqn:F.
  - apply calls_for_unique; [now apply NoDup_glob|].
    apply glob_In. now split.
  - apply calls_for_other. intros x Hx E.
    apply glob_In in Hx as [_ Fx]. rewrite E in Fx. congruence.
Qed.

Lemma not_extracted_skips (w : world) (z : dir_entry) :
  extracted w z = None -> skips w z /\ unregistered w z.
Proof.
  intros E. split.
  - intros n t. destruct (process_file_grows w z n t) as (t' & P & S1 & _).
    unfold yields_id, calls_of in *. rewrite E in *.
    exists t'. split; [exact P|]. now rewrite S1, app_nil_r.
  - intros entries L N H. rewrite (run_calls_for w entries z L N H).
    unfold calls_of. rewrite E. now destruct (fnmatchcase zip_pattern (name z)).
Qed.

Lemma extract_returns (w : world) (z : dir_entry) (t : trace) :
  exists t', extract_module_id w z t = Ret (extracted w z) t'.
Proof.
  destruct (extract_shape w z) as (out & _ & E). rewrite E. now eexists.
Qed.


(** ** The console *)

Lemma accepted_prefix (out : console) (t t' : trace) (extra : list pystr) :
  printed t' = printed t ++ extra -> accepted out t' -> accepted out t.
Proof.
  intros E H line Hl. apply H. rewrite E. apply in_or_app. now left.
Qed.

Lemma monotone_ret {A} (a : A) : monotone (ret a).
Proof. intros t. exists []. cbn. now rewrite app_nil_r. Qed.

Lemma monotone_raise {A} (e : exn) : monotone (@raise A e).
Proof. intros t. exists []. cbn. now rewrite app_nil_r. Qed.

Lemma monotone_print (s : pystr) : monotone (print s).
Proof. intros t. now exists [s]. Qed.

Lemma monotone_bind {A B} (m : M A) (k : A -> M B) :
  monotone m -> (forall a, monotone (k a)) -> monotone (bind m k).
Proof.
  intros Hm Hk t. unfold bind. destruct (Hm t) as (x & Ex).
  destruct (m t) as [a t1|e t1]; cbn [trace_of] in Ex.
  - destruct (Hk a t1) as (y & Ey). exists (x ++ y).
    now rewrite Ey, Ex, app_assoc.
  - now exists x.
Qed.

Lemma monotone_try {A} (m : M A) (h : exn -> M A) :
  monotone m -> (forall e, monotone (h e)) -> monotone (try_except m h).
Proof.
  intros Hm Hh t. unfold try_except. destruct (Hm t) as (x & Ex).
  destruct (m t) as [a t1|e t1]; cbn [trace_of] in Ex.
  - now exists x.
  - destruct (Hh e t1) as (y & Ey). exists (x ++ y).
    now rewrite Ey, Ex, app_assoc.
Qed.

Lemma monotone_when (b : bool) (m : M unit) : monotone m -> monotone (when b m).
Proof. intros H. destruct b; [exact H | apply monotone_ret]. Qed.

Lemma monotone_ZipFile (z : dir_entry) : monotone (ZipFile z).
Proof.
  unfold ZipFile. destruct (archive z); [apply monotone_ret | apply monotone_raise].
Qed.

Lemma monotone_zip_read (fl : list zip_entry) (n : pystr) :
  monotone (zip_read fl n).
Proof.
  unfold zip_read. destruct (getinfo fl n) as [e|]; [|apply monotone_raise].
  destruct (data e); [apply monotone_ret | apply monotone_raise].
Qed.

Lemma monotone_decode_utf8 (b : list byte) : monotone (decode_utf8 b).
Proof.
  unfold decode_utf8.
  destruct (Utf8.decode b); [apply monotone_ret | apply monotone_raise].
Qed.

Lemma monotone_scan_lines (lines : list pystr) : monotone (scan_lines lines).
Proof.
  intros t. rewrite scan_lines_find. exists []. cbn. now rewrite app_nil_r.
Qed.

Lemma monotone_subprocess_run (w : world) (c : invocation) :
  monotone (subprocess_run w c).
Proof.
  intros t. unfold subprocess_run. exists [].
  destruct (run_process w (spawned t) c); cbn; now rewrite app_nil_r.
Qed.

Lemma agree_refl {A} (out : console) (m : M A) : agree out m m.
Proof. intros t _. reflexivity. Qed.

Lemma agree_print (out : console) (s : pystr) :
  agree out (print_to out s) (print s).
Proof.
  intros t H. unfold print_to. rewrite (H s); [reflexivity|].
  cbn. apply in_or_app. right. now left.
Qed.

Lemma agree_bind {A B} (out : console) (m_on m : M A) (k_on k : A -> M B) :
  agree out m_on m ->
  (forall a, agree out (k_on a) (k a)) ->
  (forall a, monotone (k a)) ->
  agree out (bind m_on k_on) (bind m k).
Proof.
  intros Hm Hk Mk t H. unfold bind in *.
  destruct (m t) as [a t1|e t1] eqn:E.
  - destruct (Mk a t1) as (x & Ex).
    rewrite (Hm t), E.
    + now apply Hk.
    + rewrite E. cbn [trace_of]. now apply (accepted_prefix out t1 _ x Ex).
  - rewrite (Hm t), E; [reflexivity|]. now rewrite E.
Qed.

Lemma agree_try {A} (out : console) (m_on m : M A) (h_on h : exn -> M A) :
  agree out m_on m ->
  (forall e, agree out (h_on e) (h e)) ->
  (forall e, monotone (h e)) ->
  agree out (try_except m_on h_on) (try_except m h).
Proof.
  intros Hm Hh Mh t H. unfold try_except in *.
  destruct (m t) as [a t1|e t1] eqn:E.
  - rewrite (Hm t), E; [reflexivity|]. now rewrite E.
  - destruct (Mh e t1) as (x & Ex).
    rewrite (Hm t), E.
    + now apply Hh.
    + rewrite E. cbn [trace_of]. now apply (accepted_prefix out t1 _ x Ex).
Qed.

Lemma agree_when (out : console) (b : bool) (m_on m : M unit) :
  agree out m_on m -> agree out (when b m_on) (when b m).
Proof. intros H. destruct b; [exact H | apply agree_refl]. Qed.

(** Follows the structure of a computation to show that it only adds to
    what was printed. *)
Ltac mono :=
  repeat first
    [ apply monotone_ret | apply monotone_raise | apply monotone_print
    | apply monotone_ZipFile | apply monotone_zip_read
    | apply monotone_decode_utf8 | apply monotone_scan_lines
    | apply monotone_subprocess_run
    | apply monotone_when
    | apply monotone_bind; [|intros ?]
    | apply monotone_try; [|intros ?]
    | match goal with
      | |- monotone (match ?x with _ => _ end) => destruct x
      end ].

(** Follows the structure of the two computations to show that they
    agree. *)
Ltac agreeing :=
  repeat first
    [ apply agree_print
    | apply agree_when
    | apply agree_bind; [|intros ?|intros ?; mono]
    | apply agree_try; [|intros ?|intros ?; mono]
    | match goal with
      | |- agree _ (match ?x with _ => _ end) _ => destruct x
      end
    | apply agree_refl ].

Lemma monotone_extract_module_id (w : world) (z : dir_entry) :
  monotone (extract_module_id w z).
Proof. unfold extract_module_id, extract_body. mono. Qed.

Lemma monotone_add_track (w : world) (module_id zip_filename : pystr) :
  monotone (add_track w module_id zip_filename).
Proof. unfold add_track. cbv zeta. mono. Qed.

Lemma monotone_process_file (w : world) (z : dir_entry) (n : nat) :
  monotone (process_file w z n).
Proof.
  unfold process_file.
  apply monotone_bind; [apply monotone_print|intros _].
  apply monotone_bind; [apply monotone_extract_module_id|intros r].
  destruct (found r).
  - apply monotone_bind; [apply monotone_print|intros _].
    apply monotone_bind; [apply monotone_add_track|intros _].
    apply monotone_ret.
  - apply monotone_bind; [apply monotone_print|intros _]. apply monotone_ret.
Qed.

Lemma monotone_for_each (w : world) (zs : list dir_entry) :
  forall n, monotone (for_each w zs n).
Proof.
  induction zs as [|z zs IH]; intros n; cbn [for_each].
  - apply monotone_ret.
  - apply monotone_bind; [apply monotone_process_file | exact IH].
Qed.

Lemma agree_extract_module_id (out : console) (w : world) (z : dir_entry) :
  agree out (extract_module_id_on out w z) (extract_module_id w z).
Proof.
  unfold extract_module_id_on, extract_module_id, extract_body_on,
    extract_body.
  agreeing.
Qed.

Lemma agree_add_track (out : console) (w : world)
  (module_id zip_filename : pystr) :
  agree out (add_track_on out w module_id zip_filename)
            (add_track w module_id zip_filename).
Proof. unfold add_track_on, add_track. cbv zeta. agreeing. Qed.

Lemma agree_process_file (out : console) (w : world) (z : dir_entry)
  (n : nat) :
  agree out (process_file_on out w z n) (process_file w z n).
Proof.
  unfold process_file_on, process_file.
  apply agree_bind; [apply agree_print| |].
  - intros _. apply agree_bind; [apply agree_extract_module_id| |].
    + intros r. destruct (found r).
      * apply agree_bind; [apply agree_print| |].
        -- intros _. apply agree_bind; [apply agree_add_track| |];
             intros _; [apply agree_refl | apply monotone_ret].
        -- intros _. apply monotone_bind;
             [apply monotone_add_track | intros _; apply monotone_ret].
      * apply agree_bind; [apply agree_print| |]; intros _;
          [apply agree_refl | apply monotone_ret].
    + intros r. destruct (found r).
      * apply monotone_bind; [apply monotone_print|intros _].
        apply monotone_bind;
          [apply monotone_add_track | intros _; apply monotone_ret].
      * apply monotone_bind; [apply monotone_print|intros _].
        apply monotone_ret.
  - intros _.
    apply monotone_bind; [apply monotone_extract_module_id|intros r].
    destruct (found r).
    + apply monotone_bind; [apply monotone_print|intros _].
      apply monotone_bind;
        [apply monotone_add_track | intros _; apply monotone_ret].
    + apply monotone_bind; [apply monotone_print|intros _].
      apply monotone_ret.
Qed.

Lemma agree_for_each (out : console) (w : world) (zs : list dir_entry) :
  forall n, agree out (for_each_on out w zs n) (for_each w zs n).
Proof.
  induction zs as [|z zs IH]; intros n; cbn [for_each_on for_each].
  - apply agree_refl.
  - apply agree_bind;
      [apply agree_process_file | exact IH | apply monotone_for_each].
Qed.

(** On a console that can show every line of the run, the script does
    what it does on the console that can show every line. *)
Lemma agree_main (out : console) (w : world) :
  agree out (main_on out w) (main w).
Proof.
  unfold main_on, main. destruct (local_dir w) as [entries|].
  - cbv zeta. destruct (glob zip_pattern entries) as [|z0 zs].
    + apply agree_bind; [apply agree_print| |]; intros _;
        [apply agree_refl | apply monotone_ret].
    + apply agree_bind; [apply agree_print| |]; intros _.
      * apply agree_bind; [apply agree_for_each| |]; intros k.
        -- apply agree_bind; [apply agree_print| |]; intros _.
           ++ apply agree_bind; [apply agree_when| |]; try intros _.
              ** apply agree_bind; [apply agree_print| |]; intros _;
                   [apply agree_print | apply monotone_print].
              ** apply agree_refl.
              ** apply monotone_ret.
           ++ apply monotone_bind; [|intros _; apply monotone_ret].
              apply monotone_when.
              apply monotone_bind; [apply monotone_print|intros _].
              apply monotone_print.
        -- apply monotone_bind; [apply monotone_print|intros _].
           apply monotone_bind; [|intros _; apply monotone_ret].
           apply monotone_when.
           apply monotone_bind; [apply monotone_print|intros _].
           apply monotone_print.
      * apply monotone_bind; [apply monotone_for_each|intros k].
        apply monotone_bind; [apply monotone_print|intros _].
        apply monotone_bind; [|intros _; apply monotone_ret].
        apply monotone_when.
        apply monotone_bind; [apply monotone_print|intros _].
        apply monotone_print.
  - apply agree_bind; [apply agree_print| |]; intros _;
      [apply agree_refl | apply monotone_ret].
Qed.

Lemma accepted_accepting (t : trace) : accepted accepting t.
Proof. intros line _. reflexivity. Qed.

Lemma main_on_accepting (w : world) : main_on accepting w start = main w start.
Proof. apply agree_main. apply accepted_accepting. Qed.

Lemma exit_status_accepting (w : world) :
  exit_status w =
    match main w start with
    | Ret code _ => code
    | Raise _ _ => 1
    end.
Proof.
  unfold exit_status, exit_status_on. now rewrite main_on_accepting.
Qed.

(** * The claims *)



(** C2.  In every run, for every archive of the directory, the registrar
    is called at most once for it, and only if the archive has both
    markers and its metadata text has an [id] line whose value is not
    empty after trimming. *)
Theorem C2_registered_at_most_once_and_only_if_valid
  (w : world) (entries : list dir_entry) (z : dir_entry) :
  local_dir w = Some entries ->
  NoDup (List.map name entries) ->
  In z entries ->
  (List.length (calls_for (name z) (final_trace w)) <= 1)%nat /\
  (calls_for (name z) (final_trace w) <> [] ->
   exists fl text line,
     archive z = Opened fl /\ has_markers fl /\ prop_text fl text /\
     In line (trimmed_lines text) /\
     id_line line = true /\ id_value line <> []).
Proof.
  intros L N H. rewrite (run_calls_for w entries z L N H).
  unfold calls_of. destruct (extracted w z) as [i|] eqn:E.
  - split; [destruct (fnmatchcase zip_pattern (name z)); simpl; lia|].
    intros _. apply extracted_some in E as (fl & text & A & Mk & Pt & I).
    unfold identifier in I.
    destruct (find _ (trimmed_lines text)) as [line|] eqn:F; [|discriminate].
    apply find_some in F as [Hin F]. apply andb_true_iff in F as [F1 F2].
    exists fl, text, line. repeat split; try assumption; try apply Mk.
    now apply truthy_nonempty.
  - split; [destruct (fnmatchcase zip_pattern (name z)); simpl; lia|].
    intros C. exfalso. apply C.
    now destruct (fnmatchcase zip_pattern (name z)).
Qed.

Lemma C2_registered_at_most_once_and_only_if_valid_witness :
  (List.length (calls_for (name example_mod)
                  (final_trace (quiet (Some [example_mod])))) <= 1)%nat /\
  (calls_for (name example_mod)
     (final_trace (quiet (Some [example_mod]))) <> [] ->
   exists fl text line,
     archive example_mod = Opened fl /\ has_markers fl /\ prop_text fl text /\
     In line (trimmed_lines text) /\
     id_line line = true /\ id_value line <> []).
Proof.
  apply (C2_registered_at_most_once_and_only_if_valid
           (quiet (Some [example_mod])) [example_mod] example_mod).
  - reflexivity.
  - apply NoDup_cons; [intros []| apply NoDup_nil].
  - left. reflexivity.
Defined.






(** C5, as stated, at an archive whose [module.prop] is the two lines
    [id=] and [id=com.example.mod]: the first line beginning with [id=]
    has an empty value, so the stated rule gives no identifier, but the
    extractor goes on to the second line and returns its value. *)
Lemma C5_first_id_line_counterexample :
  let z := example_two_ids in
  let text := str "id=" ++ nl ++ str "id=com.example.mod" in
  archive z = module_zip (bytes_of "id=" ++ [x0a] ++ bytes_of "id=com.example.mod") /\
  Utf8.decode (bytes_of "id=" ++ [x0a] ++ bytes_of "id=com.example.mod")
    = Some text /\
  spec_identifier text = None /\
  extract_module_id (quiet (Some [z])) z start
    = Ret (Some (str "com.example.mod")) start /\
  ~ (exists t', extract_module_id (quiet (Some [z])) z start
                = Ret (spec_identifier text) t').
Proof.
  cbv zeta. repeat split. intros (t' & H). vm_compute in H. discriminate H.
Qed.

(** C5, amended.  For every archive with both markers whose [module.prop]
    reads and decodes to text, the extractor splits the text into lines,
    trims each line, and returns the value of the first line that begins
    with [id=] and whose value (the substring after the first [=],
    trimmed) is not empty; lines [id=] with an empty value are passed
    over.  It returns no identifier when there is no such line. *)
Theorem C5_first_nonempty_id_line
  (w : world) (z : dir_entry) (fl : list zip_entry) (text : pystr) (t : trace) :
  archive z = Opened fl ->
  has_markers fl ->
  prop_text fl text ->
  (exists t', extract_module_id w z t = Ret (identifier text) t') /\
  (forall pre line post,
     List.map strip (splitlines text) = pre ++ line :: post ->
     (forall l, In l pre ->
        startswith (str "id=") l = false \/ strip (after_first 61 l) = []) ->
     startswith (str "id=") line = true ->
     strip (after_first 61 line) <> [] ->
     identifier text = Some (strip (after_first 61 line))) /\
  ((forall l, In l (List.map strip (splitlines text)) ->
      startswith (str "id=") l = false \/ strip (after_first 61 l) = []) ->
   identifier text = None).
Proof.
  intros A Mk Pt. split; [|split].
  - rewrite <- (extracted_well_formed w z fl text A Mk Pt).
    apply extract_returns.
  - intros pre line post E Hpre Hid Hval.
    unfold identifier, trimmed_lines. rewrite E.
    rewrite (find_first_after _ pre line post); [reflexivity| |].
    + intros l Hl. destruct (Hpre l Hl) as [H | H].
      * unfold id_line. now rewrite H.
      * unfold id_value. rewrite H. apply andb_false_r.
    + unfold id_line, id_value. rewrite Hid.
      now apply truthy_nonempty in Hval.
  - intros H. unfold identifier, trimmed_lines.
    rewrite (find_none_all _ (List.map strip (splitlines text))); [reflexivity|].
    intros l Hl. destruct (H l Hl) as [H' | H'].
    + unfold id_line. now rewrite H'.
    + unfold id_value. rewrite H'. apply andb_false_r.
Qed.

Lemma C5_first_nonempty_id_line_witness :
  let z := example_two_ids in
  let text := str "id=" ++ nl ++ str "id=com.example.mod" in
  (exists t', extract_module_id (quiet (Some [z])) z start
              = Ret (identifier text) t') /\
  (forall pre line post,
     List.map strip (splitlines text) = pre ++ line :: post ->
     (forall l, In l pre ->
        startswith (str "id=") l = false \/ strip (after_first 61 l) = []) ->
     startswith (str "id=") line = true ->
     strip (after_first 61 line) <> [] ->
     identifier text = Some (strip (after_first 61 line))) /\
  ((forall l, In l (List.map strip (splitlines text)) ->
      startswith (str "id=") l = false \/ strip (after_first 61 l) = []) ->
   identifier text = None).
Proof.
  apply (C5_first_nonempty_id_line (quiet (Some [example_two_ids]))
           example_two_ids
           [ member updater_script []; member update_binary [];
             member module_prop_name
               (bytes_of "id=" ++ [x0a] ++ bytes_of "id=com.example.mod") ]
           (str "id=" ++ nl ++ str "id=com.example.mod") start).
  - reflexivity.
  - split; [left; reflexivity | right; left; reflexivity].
  - exists (member module_prop_name
              (bytes_of "id=" ++ [x0a] ++ bytes_of "id=com.example.mod")),
      (bytes_of "id=" ++ [x0a] ++ bytes_of "id=com.example.mod").
    repeat split; vm_compute; reflexivity.
Defined.

(** C6.  For every archive whose [module.prop] has exactly one line that
    begins with [id=] (after trimming), with a value that is empty after
    trimming, the extractor returns no identifier, the loop body skips
    the archive, and the registrar is not called for it. *)
Theorem C6_blank_id_is_absent
  (w : world) (z : dir_entry) (fl : list zip_entry) (text : pystr)
  (pre : list pystr) (line : pystr) (post : list pystr) :
  archive z = Opened fl ->
  prop_text fl text ->
  List.map strip (splitlines text) = pre ++ line :: post ->
  (forall l, In l (pre ++ post) -> startswith (str "id=") l = false) ->
  startswith (str "id=") line = true ->
  strip (after_first 61 line) = [] ->
  (forall t, exists t', extract_module_id w z t = Ret None t') /\
  skips w z /\ unregistered w z.
Proof.
  intros A (e & raw & G & Dt & Dc) E Hrest Hid Hval.
  assert (I : identifier text = None).
  { unfold identifier, trimmed_lines. rewrite E.
    rewrite find_none_all; [reflexivity|].
    intros l Hl. apply in_app_or in Hl as [Hl | [<- | Hl]].
    - unfold id_line. rewrite (Hrest l); [reflexivity|].
      apply in_or_app. now left.
    - unfold id_value. rewrite Hval. apply andb_false_r.
    - unfold id_line. rewrite (Hrest l); [reflexivity|].
      apply in_or_app. now right. }
  assert (X : extracted w z = None).
  { pose proof (extracted_cases w z) as C. rewrite A, G in C.
    destruct e as [fn d]. cbn [data] in Dt. subst d. rewrite Dc, I in C.
    now destruct (contains updater_script (namelist fl)
                  && contains update_binary (namelist fl)
                  && contains module_prop_name (namelist fl)). }
  split; [|now apply not_extracted_skips].
  intros t. rewrite <- X. apply extract_returns.
Qed.

Lemma C6_blank_id_is_absent_witness :
  (forall t, exists t',
     extract_module_id (quiet (Some [example_blank])) example_blank t
     = Ret None t') /\
  skips (quiet (Some [example_blank])) example_blank /\
  unregistered (quiet (Some [example_blank])) example_blank.
Proof.
  apply (C6_blank_id_is_absent (quiet (Some [example_blank])) example_blank
           [ member updater_script []; member update_binary [];
             member module_prop_name (bytes_of "id=  ") ]
           (str "id=  ") [] (str "id=") []).
  - reflexivity.
  - exists (member module_prop_name (bytes_of "id=  ")), (bytes_of "id=  ").
    repeat split; vm_compute; reflexivity.
  - vm_compute. reflexivity.
  - intros l [].
  - vm_compute. reflexivity.
  - vm_compute. reflexivity.
Defined.

(** C7.  For every archive that lacks one of the two marker entries, the
    extractor returns no identifier (after a warning), the loop body
    skips the archive and the registrar is never called for it. *)
Theorem C7_missing_marker_is_skipped
  (w : world) (z : dir_entry) (fl : list zip_entry) :
  archive z = Opened fl ->
  ~ In (str "META-INF/com/google/android/updater-script") (namelist fl) \/
  ~ In (str "META-INF/com/google/android/update-binary") (namelist fl) ->
  (forall t, extract_module_id w z t =
     Ret None
       {| printed := printed t ++
            [str "Warning: " ++ name z ++
             str " is not a valid Magisk module (missing updater-script or update-binary)"];
          spawned := spawned t |}) /\
  skips w z /\ unregistered w z.
Proof.
  intros A H.
  assert (H' : contains updater_script (namelist fl) = false \/
               contains update_binary (namelist fl) = false).
  { destruct H as [H | H]; [left | right]; now apply contains_false. }
  pose proof (fun t => extract_missing_marker w z fl t A H') as E.
  split; [exact E|]. apply not_extracted_skips.
  unfold extracted. now rewrite E.
Qed.

Lemma C7_missing_marker_is_skipped_witness :
  (forall t, extract_module_id (quiet (Some [example_no_binary])) example_no_binary t =
     Ret None
       {| printed := printed t ++
            [str "Warning: " ++ str "half.zip" ++
             str " is not a valid Magisk module (missing updater-script or update-binary)"];
          spawned := spawned t |}) /\
  skips (quiet (Some [example_no_binary])) example_no_binary /\
  unregistered (quiet (Some [example_no_binary])) example_no_binary.
Proof.
  apply (C7_missing_marker_is_skipped (quiet (Some [example_no_binary]))
           example_no_binary
           [ member updater_script [];
             member module_prop_name (bytes_of "id=com.example.mod") ]).
  - reflexivity.
  - right. intros H. apply contains_In in H. vm_compute in H. discriminate H.
Defined.

(** C8.  For every archive with both markers and no member [module.prop],
    the extractor returns no identifier (after a warning) and the archive
    is skipped without a call of the registrar. *)
Theorem C8_missing_module_prop_is_skipped
  (w : world) (z : dir_entry) (fl : list zip_entry) :
  archive z = Opened fl ->
  has_markers fl ->
  ~ In (str "module.prop") (namelist fl) ->
  (forall t, extract_module_id w z t =
     Ret None
       {| printed := printed t ++
            [str "Warning: " ++ name z ++ str " does not contain module.prop"];
          spawned := spawned t |}) /\
  skips w z /\ unregistered w z.
Proof.
  intros A [M1 M2] H.
  apply contains_In in M1, M2. apply contains_false in H.
  pose proof (fun t => extract_no_prop w z fl t A M1 M2 H) as E.
  split; [exact E|]. apply not_extracted_skips.
  unfold extracted. now rewrite E.
Qed.

Lemma C8_missing_module_prop_is_skipped_witness :
  (forall t, extract_module_id (quiet (Some [example_no_prop])) example_no_prop t =
     Ret None
       {| printed := printed t ++
            [str "Warning: " ++ str "bare.zip" ++
             str " does not contain module.prop"];
          spawned := spawned t |}) /\
  skips (quiet (Some [example_no_prop])) example_no_prop /\
  unregistered (quiet (Some [example_no_prop])) example_no_prop.
Proof.
  apply (C8_missing_module_prop_is_skipped (quiet (Some [example_no_prop]))
           example_no_prop
           [ member updater_script []; member update_binary [] ]).
  - reflexivity.
  - split; [left; reflexivity | right; left; reflexivity].
  - intros H. apply contains_In in H. vm_compute in H. discriminate H.
Defined.




(** A suffix is determined by its length. *)
Lemma app_suffix_eq {A} (x y a b : list A) :
  List.length a = List.length b -> x ++ a = y ++ b -> a = b.
Proof.
  intros L E.
  assert (Lx : List.length x = List.length y).
  { apply (f_equal (@List.length A)) in E. rewrite !length_app in E. lia. }
  revert y E Lx. induction x as [|c x IH]; intros [|d y] E Lx;
    simpl in *; try discriminate.
  - exact E.
  - injection E as _ E. apply (IH y E). lia.
Qed.

Lemma processing_line_not_plain (n : pystr) : ~ plain (processing_line n).
Proof.
  unfold plain, processing_line. intros H.
  assert (T : startswith (nl ++ str "Processing ")
                (nl ++ str "Processing " ++ n ++ str "...") = true).
  { apply startswith_prefix. exists (n ++ str "..."). now rewrite <- app_assoc. }
  congruence.
Qed.

Lemma processing_line_inj (n n' : pystr) :
  processing_line n = processing_line n' -> n = n'.
Proof.
  unfold processing_line. intros H.
  apply app_inv_head in H. apply app_inv_head in H.
  now apply app_inv_tail in H.
Qed.

(** C10.  The scanner lists exactly the entries whose names end in the
    lowercase [.zip]; a name that ends in [.ZIP] does not; and for a name
    that does not end in [.zip] a run neither announces the processing of
    that file nor calls the registrar for it. *)
Theorem C10_glob_selects_lowercase_zip (w : world) (entries : list dir_entry) :
  local_dir w = Some entries ->
  (forall z, In z (glob zip_pattern entries) <->
             In z entries /\ exists stem, name z = stem ++ str ".zip") /\
  (forall stem, fnmatchcase zip_pattern (stem ++ str ".ZIP") = false) /\
  (forall n, ~ (exists stem, n = stem ++ str ".zip") ->
     ~ In n (List.map name (glob zip_pattern entries)) /\
     ~ In (nl ++ str "Processing " ++ n ++ str "...")
          (printed (final_trace w)) /\
     calls_for n (final_trace w) = []).
Proof.
  intros L. split; [|split].
  - intros z. rewrite glob_In, zip_pattern_suffix. reflexivity.
  - intros stem. destruct (fnmatchcase zip_pattern (stem ++ str ".ZIP")) eqn:F;
      [|reflexivity].
    apply zip_pattern_suffix in F as (stem' & E).
    apply app_suffix_eq in E; [discriminate E | reflexivity].
  - intros n F.
    assert (Hn : forall z, In z (glob zip_pattern entries) -> name z <> n).
    { intros z Hz E. apply glob_In in Hz as [_ Fz]. rewrite E in Fz.
      now apply zip_pattern_suffix in Fz. }
    split; [|split].
    + intros H. apply in_map_iff in H as (z & E & Hz). now apply (Hn z).
    + fold (processing_line n). intros H.
      pose proof (run_shape w) as R. rewrite L in R.
      destruct R as (t & E & _ & Fa). unfold final_trace in H.
      rewrite E in H. rewrite Forall_forall in Fa.
      destruct (Fa _ H) as [P | (z & Hz & Ez)].
      * now apply (processing_line_not_plain n).
      * apply processing_line_inj in Ez. now apply (Hn z).
    + unfold calls_for. rewrite (run_spawned w entries L).
      now apply calls_for_other.
Qed.

Lemma C10_glob_selects_lowercase_zip_witness :
  let w := quiet (Some [example_mod; example_upper]) in
  glob zip_pattern [example_mod; example_upper] = [example_mod] /\
  (forall z, In z (glob zip_pattern [example_mod; example_upper]) <->
             In z [example_mod; example_upper] /\
             exists stem, name z = stem ++ str ".zip") /\
  (forall stem, fnmatchcase zip_pattern (stem ++ str ".ZIP") = false) /\
  (forall n, ~ (exists stem, n = stem ++ str ".zip") ->
     ~ In n (List.map name (glob zip_pattern [example_mod; example_upper])) /\
     ~ In (nl ++ str "Processing " ++ n ++ str "...")
          (printed (final_trace w)) /\
     calls_for n (final_trace w) = []).
Proof.
  split; [reflexivity|].
  exact (C10_glob_selects_lowercase_zip
           (quiet (Some [example_mod; example_upper]))
           [example_mod; example_upper] eq_refl).
Defined.

(** * Further properties of the code *)

(** ** The registrar's report *)






(** ** The extractor's report and the loop body *)

Lemma extract_outcome (w : world) (z : dir_entry) :
  exists out,
    (forall t, extract_module_id w z t = Ret (extracted w z) (say t out)) /\
    match extracted w z with
    | Some _ => out = []
    | None => exists line, out = [line] /\ reason_line w z line
    end.
Proof.
  assert (U : forall out,
            (forall t, extract_module_id w z t = Ret None (say t out)) ->
            (exists line, out = [line] /\ reason_line w z line) ->
            exists out,
              (forall t, extract_module_id w z t
                         = Ret (extracted w z) (say t out)) /\
              match extracted w z with
              | Some _ => out = []
              | None => exists line, out = [line] /\ reason_line w z line
              end).
  { intros out H R. exists out. unfold extracted. rewrite (H start).
    split; [exact H | exact R]. }
  destruct (archive z) as [fl|e] eqn:A.
  - destruct (contains updater_script (namelist fl)) eqn:C1;
      [destruct (contains update_binary (namelist fl)) eqn:C2;
        [destruct (contains module_prop_name (namelist fl)) eqn:C3|]|].
    + pose proof (extract_with_prop w z fl) as E.
      specialize (fun t => E t A C1 C2 C3).
      destruct (getinfo fl module_prop_name) as [e|];
        [destruct (data e) as [raw|x];
          [destruct (Utf8.decode raw) as [text|];
            [destruct (identifier text) as [i|]|]|]|].
      * exists []. unfold extracted. rewrite (E start). split; [|reflexivity].
        intros t. rewrite say_nil. apply E.
      * apply (U _ E). eexists. split; [reflexivity|].
        right. right. left. reflexivity.
      * apply (U _ E). eexists. split; [reflexivity|].
        right. right. right. eexists. reflexivity.
      * apply (U _ E). eexists. split; [reflexivity|].
        right. right. right. eexists. reflexivity.
      * apply (U _ E). eexists. split; [reflexivity|].
        right. right. right. eexists. reflexivity.
    + apply (U _ (fun t => extract_no_prop w z fl t A C1 C2 C3)).
      eexists. split; [reflexivity|]. right. left. reflexivity.
    + apply (U _ (fun t => extract_missing_marker w z fl t A (or_intror C2))).
      eexists. split; [reflexivity|]. left. reflexivity.
    + apply (U _ (fun t => extract_missing_marker w z fl t A (or_introl C1))).
      eexists. split; [reflexivity|]. left. reflexivity.
  - apply (U _ (fun t => extract_open_fails w z e t A)).
    eexists. split; [reflexivity|]. right. right. right. eexists. reflexivity.
Qed.

(** X3.  Whatever was printed before, the extractor starts no process and
    prints nothing when it returns an identifier, and prints exactly one
    line, a warning or an error that names the archive, when it returns
    none. *)
Theorem X3_extractor_explains_every_absence
  (w : world) (z : dir_entry) (t : trace) :
  exists r out,
    extract_module_id w z t =
      Ret r {| printed := printed t ++ out; spawned := spawned t |} /\
    match r with
    | Some _ => out = []
    | None =>
        exists line, out = [line] /\
          (line = str "Warning: " ++ name z ++
                  str " is not a valid Magisk module (missing updater-script or update-binary)"
           \/ line = str "Warning: " ++ name z ++
                     str " does not contain module.prop"
           \/ line = str "Warning: Could not find 'id=' in module.prop of " ++
                     name z
           \/ exists e, line = str "Error reading " ++ name z ++ str ": " ++
                               exn_text w e)
    end.
Proof.
  destruct (extract_outcome w z) as (out & E & R).
  exists (extracted w z), out. split; [apply E | exact R].
Qed.



(** ** The output of a run *)















(** ** The registrar's outcomes do not steer the run *)

Lemma extracted_same (w w' : world) (z : dir_entry) :
  extracted w z = extracted w' z.
Proof.
  pose proof (extracted_cases w z) as C.
  pose proof (extracted_cases w' z) as C'.
  destruct (archive z) as [fl|e]; [|congruence].
  destruct (contains updater_script (namelist fl)
            && contains update_binary (namelist fl)
            && contains module_prop_name (namelist fl)); [|congruence].
  destruct (getinfo fl module_prop_name) as [[fn [raw|x]]|]; try congruence.
  destruct (Utf8.decode raw); congruence.
Qed.

Lemma calls_of_same (w w' : world) (z : dir_entry) :
  sys_executable w = sys_executable w' -> script_dir w = script_dir w' ->
  calls_of w z = calls_of w' z.
Proof.
  intros Ex Dir. unfold calls_of, registration.
  rewrite (extracted_same w w' z), Ex, Dir. reflexivity.
Qed.

(** X7.  Best effort: two runs over the same directory, with the same
    interpreter and script directory, make the same calls in the same
    order and end with the same exit status, however the external program
    answers (exit codes, captured text, launch failures) and however
    exceptions are rendered. *)
Theorem X7_registrar_outcome_does_not_steer (w w' : world) :
  sys_executable w = sys_executable w' ->
  script_dir w = script_dir w' ->
  local_dir w = local_dir w' ->
  spawned (final_trace w) = spawned (final_trace w') /\
  exit_status w = exit_status w'.
Proof.
  intros Ex Dir L.
  pose proof (C := run_shape w). pose proof (C' := run_shape w').
  rewrite !exit_status_accepting. unfold final_trace. rewrite <- L in C'.
  destruct (local_dir w) as [entries|].
  - destruct C as (t & -> & S1 & _). destruct C' as (t' & -> & S1' & _).
    split; [|reflexivity]. rewrite S1, S1'.
    apply flat_map_ext. intros z. now apply calls_of_same.
  - rewrite C, C'. split; reflexivity.
Qed.

Lemma X7_registrar_outcome_does_not_steer_witness :
  spawned (final_trace (quiet (Some [example_mod; example_blank]))) =
  spawned (final_trace (broken (Some [example_mod; example_blank]))) /\
  exit_status (quiet (Some [example_mod; example_blank])) =
  exit_status (broken (Some [example_mod; example_blank])).
Proof.
  exact (X7_registrar_outcome_does_not_steer
           (quiet (Some [example_mod; example_blank]))
           (broken (Some [example_mod; example_blank]))
           eq_refl eq_refl eq_refl).
Defined.

(** ** Trimming *)

Lemma lstrip_keeps (c : Z) (s : pystr) :
  isspace c = false -> lstrip (c :: s) = c :: s.
Proof. intros H. cbn [lstrip]. now rewrite H. Qed.

Lemma lstrip_head (s : pystr) :
  lstrip s = [] \/ exists c r, lstrip s = c :: r /\ isspace c = false.
Proof.
  induction s as [|c s IH]; [now left|].
  cbn [lstrip]. destruct (isspace c) eqn:E; [exact IH|].
  right. now exists c, s.
Qed.

Lemma lstrip_idem (s : pystr) : lstrip (lstrip s) = lstrip s.
Proof.
  destruct (lstrip_head s) as [-> | (c & r & -> & H)]; [reflexivity|].
  now apply lstrip_keeps.
Qed.

Lemma lstrip_snoc (s : pystr) (c : Z) :
  isspace c = false -> lstrip (s ++ [c]) = lstrip s ++ [c].
Proof.
  intros H. induction s as [|d s IH]; cbn [lstrip app].
  - now rewrite H.
  - destruct (isspace d); [exact IH | reflexivity].
Qed.

Lemma lstrip_incl (s : pystr) (x : Z) : In x (lstrip s) -> In x s.
Proof.
  induction s as [|c s IH]; cbn [lstrip]; [easy|].
  destruct (isspace c); [|easy]. intros H. right. now apply IH.
Qed.

Lemma rstrip_incl (s : pystr) (x : Z) : In x (rstrip s) -> In x s.
Proof.
  unfold rstrip. intros H. apply in_rev in H. apply lstrip_incl in H.
  now apply in_rev in H.
Qed.

Lemma strip_incl (s : pystr) (x : Z) : In x (strip s) -> In x s.
Proof. unfold strip. intros H. now apply lstrip_incl, rstrip_incl. Qed.

Lemma rstrip_idem (s : pystr) : rstrip (rstrip s) = rstrip s.
Proof. unfold rstrip. now rewrite rev_involutive, lstrip_idem. Qed.

Lemma rstrip_cons (c : Z) (s : pystr) :
  isspace c = false -> rstrip (c :: s) = c :: rstrip s.
Proof.
  intros H. unfold rstrip. cbn [rev].
  now rewrite (lstrip_snoc _ _ H), rev_app_distr.
Qed.

(** Trimming on the right leaves a string trimmed on the left as it is
    on the left. *)
Lemma lstrip_rstrip_lstrip (s : pystr) :
  lstrip (rstrip (lstrip s)) = rstrip (lstrip s).
Proof.
  destruct (lstrip_head s) as [-> | (c & r & -> & H)]; [reflexivity|].
  rewrite (rstrip_cons _ _ H). now apply lstrip_keeps.
Qed.

Lemma strip_idem (s : pystr) : strip (strip s) = strip s.
Proof.
  unfold strip. now rewrite lstrip_rstrip_lstrip, rstrip_idem.
Qed.

Lemma strip_fixed_sides (s : pystr) :
  strip s = s -> lstrip s = s /\ rstrip s = s.
Proof.
  intros H.
  assert (L : lstrip s = s).
  { rewrite <- H at 1. unfold strip. rewrite lstrip_rstrip_lstrip. exact H. }
  split; [exact L|]. unfold strip in H. now rewrite L in H.
Qed.

Lemma after_first_incl (sep : Z) (s : pystr) (x : Z) :
  In x (after_first sep s) -> In x s.
Proof.
  induction s as [|c s IH]; cbn [after_first]; [easy|].
  destruct (c =? sep); intros H; right; [exact H | now apply IH].
Qed.

(** ** Lines *)

Lemma splitlines_from_cons (cur : pystr) (c : Z) (rest : pystr) :
  splitlines_from cur (c :: rest) =
    if islinebreak c then
      rev cur ::
        match rest with
        | d :: rest' =>
            if (c =? 0x0D) && (d =? 0x0A) then splitlines_from [] rest'
            else splitlines_from [] rest
        | [] => splitlines_from [] rest
        end
    else splitlines_from (c :: cur) rest.
Proof. reflexivity. Qed.

(** No line of [splitlines] holds a line boundary. *)
Lemma splitlines_from_one_line (n : nat) :
  forall cur s, (List.length s <= n)%nat -> one_line cur ->
    Forall one_line (splitlines_from cur s).
Proof.
  induction n as [|n IH]; intros cur s Hn Hc.
  - destruct s as [|c s]; [|cbn [List.length] in Hn; lia].
    cbn [splitlines_from]. destruct cur; [constructor|].
    apply Forall_cons; [|constructor]. now apply Forall_rev.
  - destruct s as [|c rest].
    + cbn [splitlines_from]. destruct cur; [constructor|].
      apply Forall_cons; [|constructor]. now apply Forall_rev.
    + cbn [List.length] in Hn. rewrite splitlines_from_cons.
      destruct (islinebreak c) eqn:B.
      * apply Forall_cons; [now apply Forall_rev|].
        destruct rest as [|d rest'].
        -- apply IH; [cbn [List.length]; lia | constructor].
        -- destruct ((c =? 13) && (d =? 10)).
           ++ apply IH; [cbn [List.length] in Hn; lia | constructor].
           ++ apply IH; [lia | constructor].
      * apply IH; [lia|]. now apply Forall_cons.
Qed.

Lemma splitlines_one_line (text line : pystr) :
  In line (splitlines text) -> one_line line.
Proof.
  intros H.
  pose proof (splitlines_from_one_line (List.length text) [] text
                (le_n _) (Forall_nil _)) as F.
  rewrite Forall_forall in F. now apply F.
Qed.

(** A first line that ends at a boundary or at the end of the text. *)
Lemma splitlines_from_first (s : pystr) :
  one_line s ->
  forall cur rest,
    (rest = [] \/ exists c r, rest = c :: r /\ islinebreak c = true) ->
    rev cur ++ s <> [] ->
    exists ls, splitlines_from cur (s ++ rest) = (rev cur ++ s) :: ls.
Proof.
  induction 1 as [|c s Hc Hs IH]; intros cur rest Hr Hne.
  - rewrite app_nil_r in *. cbn [app].
    destruct Hr as [-> | (c & r & -> & Hc)].
    + cbn [splitlines_from]. destruct cur as [|x cur]; [now destruct Hne|].
      now eexists.
    + rewrite splitlines_from_cons, Hc. now eexists.
  - cbn [app]. rewrite splitlines_from_cons, Hc.
    destruct (IH (c :: cur) rest Hr) as (ls & E).
    + cbn [rev]. rewrite <- app_assoc. cbn [app].
      intros E. now destruct (rev cur).
    + exists ls. rewrite E. cbn [rev]. now rewrite <- app_assoc.
Qed.

(** ** The shape of an identifier *)

Lemma identifier_shape (text module_id : pystr) :
  identifier text = Some module_id ->
  module_id <> [] /\ strip module_id = module_id /\ one_line module_id.
Proof.
  intros I. split; [apply truthy_nonempty; now apply (identifier_truthy text)|].
  unfold identifier in I.
  destruct (find _ (trimmed_lines text)) as [line|] eqn:F; [|discriminate].
  apply find_some in F as [Hin _]. cbn [option_map] in I.
  injection I as <-. split; [apply strip_idem|].
  unfold trimmed_lines in Hin. apply in_map_iff in Hin as (l0 & <- & Hl0).
  apply splitlines_one_line in Hl0. unfold one_line in *.
  rewrite Forall_forall in *. intros x Hx. apply Hl0.
  unfold id_value in Hx.
  now apply strip_incl, after_first_incl, strip_incl in Hx.
Qed.

(** X8.  An identifier the extractor returns is never empty, has no
    whitespace on either side (trimming it again changes nothing) and
    holds no line boundary. *)
Theorem X8_identifier_shape
  (w : world) (z : dir_entry) (t t' : trace) (module_id : pystr) :
  extract_module_id w z t = Ret (Some module_id) t' ->
  module_id <> [] /\
  strip module_id = module_id /\
  Forall (fun c => islinebreak c = false) module_id.
Proof.
  intros H. destruct (extract_returns w z t) as (t'' & E).
  rewrite E in H. injection H as H _.
  apply extracted_some in H as (fl & text & _ & _ & _ & I).
  now apply (identifier_shape text).
Qed.

Lemma X8_identifier_shape_witness :
  str "com.example.mod" <> [] /\
  strip (str "com.example.mod") = str "com.example.mod" /\
  Forall (fun c => islinebreak c = false) (str "com.example.mod").
Proof.
  exact (X8_identifier_shape (quiet None) example_mod start start
           (str "com.example.mod") eq_refl).
Defined.

Lemma strip_id_line (v : pystr) :
  v <> [] -> strip v = v -> strip (str "id=" ++ v) = str "id=" ++ v.
Proof.
  intros Hne Hv. apply strip_fixed_sides in Hv as [_ R].
  unfold strip. change (str "id=" ++ v) with (105 :: 100 :: 61 :: v).
  rewrite lstrip_keeps by reflexivity.
  rewrite !rstrip_cons by reflexivity. now rewrite R.
Qed.

Lemma identifier_first_line (v rest : pystr) :
  (rest = [] \/ exists c r, rest = c :: r /\ islinebreak c = true) ->
  v <> [] -> strip v = v -> one_line v ->
  identifier (str "id=" ++ v ++ rest) = Some v.
Proof.
  intros Hr Hne Hv Hl.
  assert (L : one_line (str "id=" ++ v)).
  { change (str "id=" ++ v) with (105 :: 100 :: 61 :: v).
    repeat (apply Forall_cons; [reflexivity|]). exact Hl. }
  destruct (splitlines_from_first _ L [] rest Hr) as (ls & E).
  { cbn [rev app]. change (str "id=" ++ v) with (105 :: 100 :: 61 :: v).
    discriminate. }
  unfold identifier, trimmed_lines, splitlines.
  rewrite app_assoc, E. cbn [rev app List.map find].
  rewrite (strip_id_line v Hne Hv).
  assert (V : id_value (str "id=" ++ v) = v).
  { unfold id_value. change (after_first 61 (str "id=" ++ v)) with v.
    exact Hv. }
  rewrite V.
  change (id_line (str "id=" ++ v)) with true. cbn [andb].
  apply truthy_nonempty in Hne. rewrite Hne. cbn [option_map].
  now rewrite V.
Qed.

(** X9.  Round trip.  For an archive with both markers whose
    [module.prop] begins with the line [id=v], where [v] is not empty,
    has no whitespace on either side and holds no line boundary, the
    extractor returns exactly [v] and prints nothing, whatever follows
    the first line. *)
Theorem X9_first_line_round_trip
  (w : world) (z : dir_entry) (fl : list zip_entry) (v rest : pystr)
  (t : trace) :
  archive z = Opened fl ->
  has_markers fl ->
  prop_text fl (str "id=" ++ v ++ rest) ->
  (rest = [] \/ exists c r, rest = c :: r /\ islinebreak c = true) ->
  v <> [] ->
  strip v = v ->
  Forall (fun c => islinebreak c = false) v ->
  extract_module_id w z t = Ret (Some v) t.
Proof.
  intros A Mk Pt Hr Hne Hv Hl.
  pose proof (extracted_well_formed w z fl _ A Mk Pt) as X.
  rewrite (identifier_first_line v rest Hr Hne Hv Hl) in X.
  destruct (extract_outcome w z) as (out & E & R).
  rewrite X in R, E. subst out. rewrite E. now rewrite say_nil.
Qed.

Lemma X9_first_line_round_trip_witness :
  extract_module_id (quiet None) example_full start
  = Ret (Some (str "com.example=mod v2")) start.
Proof.
  apply (X9_first_line_round_trip (quiet None) example_full
           [ member updater_script []; member update_binary [];
             member module_prop_name
               (bytes_of "id=com.example=mod v2" ++ [x0d; x0a] ++
                bytes_of "name=Example") ]
           (str "com.example=mod v2")
           ([13; 10] ++ str "name=Example") start).
  - reflexivity.
  - split; [left; reflexivity | right; left; reflexivity].
  - eexists. eexists. repeat split; vm_compute; reflexivity.
  - right. exists 13, (10 :: str "name=Example"). split; reflexivity.
  - discriminate.
  - vm_compute. reflexivity.
  - repeat (apply Forall_cons; [reflexivity|]). apply Forall_nil.
Defined.

(** ** A byte order mark *)

Lemma decode_bom (raw : list byte) :
  Utf8.decode (xef :: xbb :: xbf :: raw) = Utf8.push 0xFEFF (Utf8.decode raw).
Proof. reflexivity. Qed.

Lemma splitlines_from_snoc (c : Z) (s : pystr) :
  forall cur,
    splitlines_from (cur ++ [c]) s =
      match splitlines_from cur s with
      | [] => [[c]]
      | l :: ls => (c :: l) :: ls
      end.
Proof.
  induction s as [|d s IH]; intros cur.
  - cbn [splitlines_from]. destruct cur as [|x cur]; [reflexivity|].
    cbn [app]. change (x :: cur ++ [c]) with ((x :: cur) ++ [c]).
    now rewrite rev_app_distr.
  - rewrite !splitlines_from_cons. destruct (islinebreak d).
    + now rewrite rev_app_distr.
    + apply (IH (d :: cur)).
Qed.

Lemma trimmed_lines_mark (c : Z) (text : pystr) :
  islinebreak c = false -> isspace c = false ->
  trimmed_lines (c :: text) =
    match splitlines text with
    | [] => [[c]]
    | l :: ls => (c :: rstrip l) :: List.map strip ls
    end.
Proof.
  intros B Sp. unfold trimmed_lines, splitlines.
  rewrite splitlines_from_cons, B.
  change [c] with ([] ++ [c]). rewrite (splitlines_from_snoc c text []).
  destruct (splitlines_from [] text) as [|l ls]; cbn [List.map].
  - unfold strip. rewrite (lstrip_keeps _ _ Sp), (rstrip_cons _ _ Sp).
    reflexivity.
  - unfold strip at 1. now rewrite (lstrip_keeps _ _ Sp), (rstrip_cons _ _ Sp).
Qed.

(** X10.  A UTF-8 byte order mark is not skipped: in a [module.prop] that
    starts with the bytes EF BB BF the first line is never taken as the
    [id=] line.  When no later line begins with [id=], the archive gets
    the warning "Could not find 'id='" and no identifier. *)
Theorem X10_byte_order_mark_hides_first_line
  (w : world) (z : dir_entry) (fl : list zip_entry) (m : zip_entry)
  (raw : list byte) (text : pystr) (t : trace) :
  archive z = Opened fl ->
  has_markers fl ->
  getinfo fl module_prop_name = Some m ->
  data m = Data (xef :: xbb :: xbf :: raw) ->
  Utf8.decode raw = Some text ->
  (forall l, In l (tl (List.map strip (splitlines text))) ->
             startswith (str "id=") l = false) ->
  extract_module_id w z t =
    Ret None
      {| printed := printed t ++
           [str "Warning: Could not find 'id=' in module.prop of " ++ name z];
         spawned := spawned t |}.
Proof.
  intros A [M1 M2] G Dt Dc Hrest. apply contains_In in M1, M2.
  rewrite (extract_with_prop w z fl t A M1 M2 (getinfo_listed _ _ _ G)).
  rewrite G, Dt, decode_bom, Dc. cbn [Utf8.push].
  assert (I : identifier (0xFEFF :: text) = None).
  { unfold identifier.
    rewrite (trimmed_lines_mark 0xFEFF text eq_refl eq_refl).
    rewrite find_none_all; [reflexivity|].
    destruct (splitlines text) as [|l ls]; cbn [List.map tl] in Hrest.
    - intros y [<- | []]. reflexivity.
    - intros y [<- | Hy]; [reflexivity|].
      unfold id_line. now rewrite (Hrest y Hy). }
  rewrite I. reflexivity.
Qed.

Lemma X10_byte_order_mark_hides_first_line_witness :
  extract_module_id (quiet None) example_bom start =
    Ret None
      {| printed :=
           [str "Warning: Could not find 'id=' in module.prop of bom.zip"];
         spawned := [] |}.
Proof.
  apply (X10_byte_order_mark_hides_first_line (quiet None) example_bom
           [ member updater_script []; member update_binary [];
             member module_prop_name
               ([xef; xbb; xbf] ++ bytes_of "id=com.example.mod") ]
           (member module_prop_name
              ([xef; xbb; xbf] ++ bytes_of "id=com.example.mod"))
           (bytes_of "id=com.example.mod")
           (str "id=com.example.mod") start).
  - reflexivity.
  - split; [left; reflexivity | right; left; reflexivity].
  - vm_compute. reflexivity.
  - reflexivity.
  - vm_compute. reflexivity.
  - intros l [].
Defined.

(** ** Line ends *)

Lemma splitlines_from_crlf (s : pystr) :
  Forall (fun c => c <> 0x0D) s ->
  forall cur, splitlines_from cur (crlf s) = splitlines_from cur s.
Proof.
  induction 1 as [|c s Hc Hs IH]; intros cur; [reflexivity|].
  cbn [crlf]. destruct (c =? 10) eqn:E.
  - apply Z.eqb_eq in E. subst c.
    rewrite !splitlines_from_cons. cbn [islinebreak].
    change (islinebreak 13) with true. change (islinebreak 10) with true.
    cbv iota. change ((13 =? 13) && (10 =? 10)) with true. cbv iota.
    rewrite IH. now destruct s.
  - rewrite !splitlines_from_cons. destruct (islinebreak c).
    + f_equal. assert (N : (c =? 13) = false) by now apply Z.eqb_neq.
      rewrite N. cbn [andb]. rewrite IH.
      destruct s as [|d s']; cbn [crlf]; [reflexivity|].
      now destruct (d =? 10).
    + apply IH.
Qed.

Lemma identifier_crlf (text : pystr) :
  Forall (fun c => c <> 0x0D) text ->
  identifier (crlf text) = identifier text.
Proof.
  intros H. unfold identifier, trimmed_lines, splitlines.
  now rewrite (splitlines_from_crlf text H).
Qed.

(** X11.  Line ends do not matter: a [module.prop] written with carriage
    return and line feed gives the same result as the same text written
    with line feeds only. *)
Theorem X11_crlf_gives_same_identifier
  (w : world) (z z' : dir_entry) (fl fl' : list zip_entry) (text : pystr)
  (t : trace) :
  archive z = Opened fl -> has_markers fl -> prop_text fl text ->
  archive z' = Opened fl' -> has_markers fl' -> prop_text fl' (crlf text) ->
  Forall (fun c => c <> 0x0D) text ->
  exists r u u',
    extract_module_id w z t = Ret r u /\
    extract_module_id w z' t = Ret r u'.
Proof.
  intros A Mk Pt A' Mk' Pt' H.
  destruct (extract_returns w z t) as (u & E).
  destruct (extract_returns w z' t) as (u' & E').
  exists (extracted w z), u, u'. split; [exact E|].
  rewrite E'. f_equal.
  rewrite (extracted_well_formed w z' fl' _ A' Mk' Pt').
  rewrite (extracted_well_formed w z fl _ A Mk Pt).
  now apply identifier_crlf.
Qed.

Lemma X11_crlf_gives_same_identifier_witness :
  exists r u u',
    extract_module_id (quiet None) example_lf start = Ret r u /\
    extract_module_id (quiet None) example_crlf start = Ret r u'.
Proof.
  apply (X11_crlf_gives_same_identifier (quiet None) example_lf example_crlf
           [ member updater_script []; member update_binary [];
             member module_prop_name
               (bytes_of "name=Example" ++ [x0a] ++
                bytes_of "id=com.example.mod" ++ [x0a]) ]
           [ member updater_script []; member update_binary [];
             member module_prop_name
               (bytes_of "name=Example" ++ [x0d; x0a] ++
                bytes_of "id=com.example.mod" ++ [x0d; x0a]) ]
           (str "name=Example" ++ nl ++ str "id=com.example.mod" ++ nl)
           start).
  - reflexivity.
  - split; [left; reflexivity | right; left; reflexivity].
  - eexists. eexists. repeat split; vm_compute; reflexivity.
  - reflexivity.
  - split; [left; reflexivity | right; left; reflexivity].
  - eexists. eexists. repeat split; vm_compute; reflexivity.
  - repeat (apply Forall_cons; [discriminate|]). apply Forall_nil.
Defined.

(** ** Bytes that are not UTF-8 *)

Lemma decode_codes_cons (b0 : Z) (r0 : list Z) :
  Utf8.decode_codes (b0 :: r0) =
    if b0 <? 0x80 then Utf8.push b0 (Utf8.decode_codes r0)
    else if b0 <? 0xC2 then None
    else if b0 <? 0xE0 then
      match r0 with
      | b1 :: r1 =>
          if Utf8.cont b1
          then Utf8.push (Utf8.join2 b0 b1) (Utf8.decode_codes r1) else None
      | _ => None
      end
    else if b0 <? 0xF0 then
      match r0 with
      | b1 :: b2 :: r2 =>
          if Utf8.second3 b0 b1 && Utf8.cont b2
          then Utf8.push (Utf8.join3 b0 b1 b2) (Utf8.decode_codes r2) else None
      | _ => None
      end
    else if b0 <? 0xF5 then
      match r0 with
      | b1 :: b2 :: b3 :: r3 =>
          if Utf8.second4 b0 b1 && Utf8.cont b2 && Utf8.cont b3
          then Utf8.push (Utf8.join4 b0 b1 b2 b3) (Utf8.decode_codes r3)
          else None
      | _ => None
      end
    else None.
Proof. reflexivity. Qed.

Lemma push_none (c : Z) : Utf8.push c None = None.
Proof. reflexivity. Qed.

Section BadByte.

Variable x : Z.
Hypothesis bad : x = 0xC0 \/ x = 0xC1 \/ 0xF5 <= x.

Lemma bad_not_cont : Utf8.cont x = false.
Proof.
  unfold Utf8.cont. apply andb_false_iff. right.
  apply Z.leb_gt. lia.
Qed.

Lemma bad_second3 (b0 : Z) : Utf8.second3 b0 x = false.
Proof. unfold Utf8.second3. now rewrite bad_not_cont. Qed.

Lemma bad_second4 (b0 : Z) : Utf8.second4 b0 x = false.
Proof. unfold Utf8.second4. now rewrite bad_not_cont. Qed.

Lemma bad_first (b : list Z) : Utf8.decode_codes (x :: b) = None.
Proof.
  rewrite decode_codes_cons.
  assert (A : (x <? 0x80) = false) by (apply Z.ltb_ge; lia).
  rewrite A.
  destruct (x <? 0xC2) eqn:B; [reflexivity|]. apply Z.ltb_ge in B.
  assert (C : (x <? 0xE0) = false) by (apply Z.ltb_ge; lia).
  assert (D : (x <? 0xF0) = false) by (apply Z.ltb_ge; lia).
  assert (E : (x <? 0xF5) = false) by (apply Z.ltb_ge; lia).
  now rewrite C, D, E.
Qed.

(** A sequence that holds such a byte does not decode. *)
Lemma decode_codes_bad (n : nat) :
  forall a b, (List.length a <= n)%nat ->
    Utf8.decode_codes (a ++ x :: b) = None.
Proof.
  induction n as [|n IH]; intros a b Hn.
  - destruct a; [apply bad_first | cbn [List.length] in Hn; lia].
  - destruct a as [|b0 a]; [apply bad_first|].
    cbn [List.length] in Hn. cbn [app]. rewrite decode_codes_cons.
    destruct (b0 <? 0x80).
    { rewrite IH by lia. apply push_none. }
    destruct (b0 <? 0xC2); [reflexivity|].
    destruct (b0 <? 0xE0).
    { destruct a as [|b1 a]; cbn [app].
      - now rewrite bad_not_cont.
      - cbn [List.length] in Hn. rewrite IH by lia.
        now destruct (Utf8.cont b1). }
    destruct (b0 <? 0xF0).
    { destruct a as [|b1 [|b2 a]]; cbn [app].
      - rewrite bad_second3. now destruct b.
      - rewrite bad_not_cont, andb_false_r. reflexivity.
      - cbn [List.length] in Hn. rewrite IH by lia.
        now destruct (Utf8.second3 b0 b1 && Utf8.cont b2). }
    destruct (b0 <? 0xF5); [|reflexivity].
    destruct a as [|b1 [|b2 [|b3 a]]]; cbn [app].
    + rewrite bad_second4. destruct b as [|? [|? ?]]; reflexivity.
    + rewrite bad_not_cont, andb_false_r. now destruct b.
    + rewrite bad_not_cont, andb_false_r. reflexivity.
    + cbn [List.length] in Hn. rewrite IH by lia.
      now destruct (Utf8.second4 b0 b1 && Utf8.cont b2 && Utf8.cont b3).
Qed.

End BadByte.

Lemma decode_never_utf8 (pre : list byte) (b : byte) (post : list byte) :
  never_utf8 b = true -> Utf8.decode (pre ++ b :: post) = None.
Proof.
  intros H. unfold Utf8.decode. rewrite map_app. cbn [List.map].
  apply (decode_codes_bad _) with (n := List.length (List.map (fun b0 => Z.of_N (Byte.to_N b0)) pre));
    [|apply le_n].
  unfold never_utf8 in H. cbv zeta in H.
  apply orb_true_iff in H as [H | H];
    [apply orb_true_iff in H as [H | H]|].
  - left. now apply Z.eqb_eq.
  - right. left. now apply Z.eqb_eq.
  - right. right. now apply Z.leb_le.
Qed.

(** X12.  The metadata is decoded as a whole before any line is looked
    at: one byte that cannot occur in UTF-8 (0xC0, 0xC1, 0xF5 to 0xFF)
    anywhere in [module.prop], even after a good [id=] line, makes the
    extractor report "Error reading" and return no identifier. *)
Theorem X12_one_bad_byte_rejects_the_archive
  (w : world) (z : dir_entry) (fl : list zip_entry) (m : zip_entry)
  (pre : list byte) (b : byte) (post : list byte) (t : trace) :
  archive z = Opened fl ->
  has_markers fl ->
  getinfo fl module_prop_name = Some m ->
  data m = Data (pre ++ b :: post) ->
  never_utf8 b = true ->
  extract_module_id w z t =
    Ret None
      {| printed := printed t ++
           [str "Error reading " ++ name z ++ str ": " ++
            exn_text w (UnicodeDecodeError (pre ++ b :: post))];
         spawned := spawned t |}.
Proof.
  intros A [M1 M2] G Dt Hb. apply contains_In in M1, M2.
  rewrite (extract_with_prop w z fl t A M1 M2 (getinfo_listed _ _ _ G)).
  rewrite G, Dt, (decode_never_utf8 pre b post Hb). reflexivity.
Qed.

Lemma X12_one_bad_byte_rejects_the_archive_witness :
  extract_module_id (quiet None) example_latin1 start =
    Ret None
      {| printed := [str "Error reading latin1.zip: error"];
         spawned := [] |}.
Proof.
  apply (X12_one_bad_byte_rejects_the_archive (quiet None) example_latin1
           [ member updater_script []; member update_binary [];
             member module_prop_name
               (bytes_of "id=com.example.mod" ++ [x0a] ++
                bytes_of "author=" ++ [xff]) ]
           (member module_prop_name
              (bytes_of "id=com.example.mod" ++ [x0a] ++
               bytes_of "author=" ++ [xff]))
           (bytes_of "id=com.example.mod" ++ [x0a] ++ bytes_of "author=")
           xff [] start).
  - reflexivity.
  - split; [left; reflexivity | right; left; reflexivity].
  - vm_compute. reflexivity.
  - reflexivity.
  - reflexivity.
Defined.

(** ** The line loop cannot fail *)

(** X13.  The index in [line.split("=", 1)[1]] is always in range, since
    it is taken only on a line that begins with [id=]: the loop over the
    lines raises nothing and prints nothing, and a returned identifier is
    what follows the first three characters of its trimmed line,
    trimmed. *)
Theorem X13_line_loop_never_raises (lines : list pystr) (t : trace) :
  exists r,
    scan_lines lines t = Ret r t /\
    match r with
    | Some module_id =>
        exists line,
          In line lines /\
          startswith (str "id=") (strip line) = true /\
          module_id = strip (skipn 3 (strip line)) /\
          module_id <> []
    | None => True
    end.
Proof.
  rewrite scan_lines_find. eexists. split; [reflexivity|].
  destruct (find _ (List.map strip lines)) as [l|] eqn:F; [|exact I].
  apply find_some in F as [Hin F]. apply andb_true_iff in F as [F1 F2].
  apply in_map_iff in Hin as (line & <- & Hin).
  cbn [option_map]. exists line. split; [exact Hin|]. split; [exact F1|].
  split; [|now apply truthy_nonempty].
  unfold id_value. unfold id_line in F1.
  apply startswith_prefix in F1 as (r & ->). reflexivity.
Qed.

(** ** Plain ASCII metadata *)

Lemma decode_codes_ascii (bs : list Z) :
  Forall (fun b => b < 0x80) bs -> Utf8.decode_codes bs = Some bs.
Proof.
  induction 1 as [|b bs Hb Hbs IH]; [reflexivity|].
  rewrite decode_codes_cons.
  assert (A : (b <? 0x80) = true) by now apply Z.ltb_lt.
  now rewrite A, IH.
Qed.

(** X14.  A [module.prop] of ASCII bytes always decodes, to the same
    characters: for an archive with both markers the extractor then never
    reports "Error reading", and returns the identifier of that text. *)
Theorem X14_ascii_metadata_always_decodes
  (w : world) (z : dir_entry) (fl : list zip_entry) (m : zip_entry)
  (raw : list byte) (t : trace) :
  archive z = Opened fl ->
  has_markers fl ->
  getinfo fl module_prop_name = Some m ->
  data m = Data raw ->
  Forall (fun b => Z.of_N (Byte.to_N b) < 0x80) raw ->
  let text := List.map (fun b => Z.of_N (Byte.to_N b)) raw in
  Utf8.decode raw = Some text /\
  extract_module_id w z t =
    match identifier text with
    | Some module_id => Ret (Some module_id) t
    | None =>
        Ret None
          {| printed := printed t ++
               [str "Warning: Could not find 'id=' in module.prop of " ++
                name z];
             spawned := spawned t |}
    end.
Proof.
  intros A [M1 M2] G Dt Hascii text. apply contains_In in M1, M2.
  assert (D : Utf8.decode raw = Some text).
  { unfold Utf8.decode. apply decode_codes_ascii.
    now apply Forall_map. }
  split; [exact D|].
  rewrite (extract_with_prop w z fl t A M1 M2 (getinfo_listed _ _ _ G)).
  rewrite G, Dt, D. reflexivity.
Qed.

Lemma X14_ascii_metadata_always_decodes_witness :
  Utf8.decode (bytes_of "id=  ") = Some (str "id=  ") /\
  extract_module_id (quiet None) example_blank start =
    Ret None
      {| printed :=
           [str "Warning: Could not find 'id=' in module.prop of blank.zip"];
         spawned := [] |}.
Proof.
  apply (X14_ascii_metadata_always_decodes (quiet None) example_blank
           [ member updater_script []; member update_binary [];
             member module_prop_name (bytes_of "id=  ") ]
           (member module_prop_name (bytes_of "id=  "))
           (bytes_of "id=  ") start).
  - reflexivity.
  - split; [left; reflexivity | right; left; reflexivity].
  - vm_compute. reflexivity.
  - reflexivity.
  - repeat (apply Forall_cons; [reflexivity|]). apply Forall_nil.
Defined.
